(** * Media storage backends of HedgeDoc: filesystem and S3

    A shallow embedding of
    [backend/src/media/backends/filesystem-backend.ts] (the classes
    [FilesystemBackend] and [S3Backend]) together with the properties of
    the storage contract they implement.

    Layout of the development:
    - [Path]: the POSIX [path.join] of Node.js that [getFilePath] calls;
    - [Js]: the pieces of JavaScript the code relies on ([parseInt],
      thrown values, settled promises);
    - [Minio], [Url]: the S3 client and the URL object, as data;
    - [Io]: the asynchronous calls of the two classes as a tree of
      requests, and the runner that feeds it with answers;
    - [Config], [FilesystemBackend], [S3Backend]: the code itself;
    - [World]: a file system and an object store to run the code against,
      alone, among other actors, or on a device that may fail;
    - [Contract], [Demo]: the vocabulary of the properties, and sample
      configurations;
    - the properties: what holds whatever the outside answers
      (error surfacing, the constructor of [S3Backend]), where
      [getFilePath] points for any identifier, and what the operations do
      to the world. *)

From Stdlib Require Import ZArith Ascii String.
From stdpp Require Import gmap strings list pretty.

Local Open Scope string_scope.
Local Open Scope list_scope.

(** ** Node's [path.posix.join] *)

Module Path.

Definition isPosixPathSeparator (c : ascii) : bool :=
  bool_decide (c = "/"%char).

(** The pieces of [path] between its separators, in order.  A string
    without separator is its own single piece; [n] separators give
    [n + 1] pieces, some of which may be empty. *)
Fixpoint segments (path : string) : list string :=
  match path with
  | EmptyString => [EmptyString]
  | String c rest =>
      if isPosixPathSeparator c then EmptyString :: segments rest
      else match segments rest with
           | seg :: segs => String c seg :: segs
           | [] => [String c EmptyString]
           end
  end.

(** One round of the loop of [normalizeString], taken at a separator (or
    at the end of the input): [res] holds the segments kept so far, the
    last one first, and [seg] is the segment that just ended.  An empty
    segment and ["."] are dropped; [".."] removes the last kept segment,
    unless there is none or it is itself [".."], in which case it is kept
    when [allowAboveRoot] holds; anything else is kept. *)
Definition normalizeStep (allowAboveRoot : bool)
    (res : list string) (seg : string) : list string :=
  if decide (seg = "") then res
  else if decide (seg = ".") then res
  else if decide (seg = "..") then
    match res with
    | top :: below =>
        if decide (top = "..")
        then (if allowAboveRoot then ".." :: res else res)
        else below
    | [] => if allowAboveRoot then [".."] else []
    end
  else seg :: res.

Definition normalizeSegments (allowAboveRoot : bool)
    (segs : list string) : list string :=
  rev (fold_left (normalizeStep allowAboveRoot) segs []).

Definition normalizeString (path : string) (allowAboveRoot : bool) : string :=
  String.concat "/" (normalizeSegments allowAboveRoot (segments path)).

Definition isAbsolute (path : string) : bool :=
  match path with
  | String c _ => isPosixPathSeparator c
  | EmptyString => false
  end.

Fixpoint trailingSeparator (path : string) : bool :=
  match path with
  | EmptyString => false
  | String c EmptyString => isPosixPathSeparator c
  | String _ rest => trailingSeparator rest
  end.

Definition normalize (path : string) : string :=
  if decide (path = "") then "."
  else
    let res := normalizeString path (negb (isAbsolute path)) in
    if decide (res = "") then
      (if isAbsolute path then "/"
       else if trailingSeparator path then "./" else ".")
    else
      let res := if trailingSeparator path then res +:+ "/" else res in
      if isAbsolute path then "/" +:+ res else res.

(** [join(...args)]: the non-empty arguments, glued with ["/"], then
    normalized; ["."] when there is nothing to glue. *)
Definition join (args : list string) : string :=
  match filter (λ arg, arg ≠ "") args with
  | [] => "."
  | parts => normalize (String.concat "/" parts)
  end.

End Path.


(** ** JavaScript values the code handles *)

Module Js.

(** A [Buffer]: the whole content of a file, in memory. *)
Definition Buffer : Type := list Byte.byte.

(** The value an [async] function declared [Promise<null>] returns. *)
Inductive Null : Type := null.

(** An [Error] object as the libraries throw them.  [code] is the
    [code] property Node's file system errors carry (["ENOENT"],
    ["EEXIST"], ...), empty when the error has none. *)
Record Error : Type := MkError {
  name : string;
  message : string;
  stack : string;
  code : string
}.

(** What a [throw] can carry here.
    Modelled from the spec: [MediaBackendError] is declared in
    [errors/errors.ts], which is not among the sources; it is the single
    error kind of the storage contract (the spec's [StorageError]),
    parameterized by a message. *)
Inductive Thrown : Type :=
| Native (e : Error)
| MediaBackendError (message : string).

(** [(e as Error).message] and [(e as Error).stack].  The stack of a
    [MediaBackendError] is not modelled; no [catch] of the two classes
    ever receives one. *)
Definition messageOf (e : Thrown) : string :=
  match e with
  | Native err => message err
  | MediaBackendError m => m
  end.

Definition stackOf (e : Thrown) : string :=
  match e with
  | Native err => stack err
  | MediaBackendError _ => ""
  end.

(** The [TypeError] of reading property [prop] of [undefined]. *)
Definition TypeError_undefined (prop : string) : Error :=
  {| name := "TypeError";
     message := "Cannot read properties of undefined (reading '" +:+ prop +:+ "')";
     stack := "";
     code := "" |}.

(** A settled promise of a library call. *)
Inductive Settled (A : Type) : Type :=
| Fulfilled (a : A)
| Rejected (e : Error).
Arguments Fulfilled {A} a.
Arguments Rejected {A} e.

(** How a function call completes. *)
Inductive Completion (A : Type) : Type :=
| Normal (a : A)
| Throw (e : Thrown).
Arguments Normal {A} a.
Arguments Throw {A} e.

(** *** [parseInt(string)], without radix argument

    [None] stands for [NaN].  The value is the exact integer; JavaScript
    rounds it to a double, which changes nothing below [2^53]. *)

Definition isWhiteSpace (c : ascii) : bool :=
  bool_decide (nat_of_ascii c ∈ [9; 10; 11; 12; 13; 32]).

Fixpoint trimStart (s : string) : string :=
  match s with
  | String c rest => if isWhiteSpace c then trimStart rest else s
  | EmptyString => s
  end.

Definition digitValue (c : ascii) : option Z :=
  let n := Z.of_nat (nat_of_ascii c) in
  if (48 <=? n)%Z && (n <=? 57)%Z then Some (n - 48)%Z
  else if (97 <=? n)%Z && (n <=? 122)%Z then Some (n - 87)%Z
  else if (65 <=? n)%Z && (n <=? 90)%Z then Some (n - 55)%Z
  else None.

(** The longest prefix of [s] made of digits of radix [R], read as a
    number; [acc] is what was read before, [None] when nothing was. *)
Fixpoint parseDigits (R : Z) (s : string) (acc : option Z) : option Z :=
  match s with
  | String c rest =>
      match digitValue c with
      | Some d =>
          if (d <? R)%Z
          then parseDigits R rest (Some (R * default 0%Z acc + d)%Z)
          else acc
      | None => acc
      end
  | EmptyString => acc
  end.

Definition parseInt (input : string) : option Z :=
  let str := trimStart input in
  let '(sign, str) :=
    match str with
    | String "-"%char rest => ((-1)%Z, rest)
    | String "+"%char rest => (1%Z, rest)
    | _ => (1%Z, str)
    end in
  let '(R, str) :=
    match str with
    | String "0"%char (String "x"%char rest) => (16%Z, rest)
    | String "0"%char (String "X"%char rest) => (16%Z, rest)
    | _ => (10%Z, str)
    end in
  (λ mathInt, (sign * mathInt)%Z) <$> parseDigits R str None.

End Js.


(** ** The S3 client and the URL object, as data *)

Module Minio.

(** The options object handed to [new Client({...})] of the [minio]
    package; a client that was built is identified with the options it was
    built from.  [port = None] is [undefined]: the client then takes the
    default port of the scheme. *)
Record Client : Type := MkClient {
  endPoint : string;
  port : option Z;
  useSSL : bool;
  accessKey : string;
  secretKey : string;
  pathStyle : bool;
  region : string
}.

End Minio.

Module Url.

(** The three properties of a WHATWG [URL] object the constructor of
    [S3Backend] reads.  [protocol] includes the colon (["https:"]);
    [port] is a string, empty when the URL names no port or names the
    default one of its scheme, and otherwise made of decimal digits. *)
Record URL : Type := MkURL {
  protocol : string;
  hostname : string;
  port : string
}.

Definition isDecimalDigit (c : ascii) : bool :=
  let n := nat_of_ascii c in (48 <=? n)%nat && (n <=? 57)%nat.

Fixpoint allDecimalDigits (s : string) : bool :=
  match s with
  | String c rest => isDecimalDigit c && allDecimalDigits rest
  | EmptyString => true
  end.

(** The number a string of decimal digits writes. *)
Fixpoint decimalValue (acc : Z) (s : string) : Z :=
  match s with
  | String c rest =>
      decimalValue (10 * acc + (Z.of_nat (nat_of_ascii c) - 48))%Z rest
  | EmptyString => acc
  end.

(** What the [port] of a [URL] object can be: empty, or the decimal
    digits of a number up to 65535. *)
Definition isPortString (s : string) : bool :=
  allDecimalDigits s && (decimalValue 0 s <=? 65535)%Z.

End Url.

(** ** Asynchronous calls as trees of requests *)

Module Io.
Import Js.

(** Every call the two classes make to something outside of them: the
    injected logger, [fs.promises], and the [minio] client.  The index is
    the type of the answer; a promise-returning call is answered with a
    settled promise.
    Modelled from the spec: the logger ([logger/console-logger.service.ts])
    is not among the sources; its methods record a message for the
    operators and return, without a result and without throwing. *)
Inductive ioE : Type → Type :=
| LoggerSetContext (context : string) : ioE unit
| LoggerDebug (message functionContext : string) : ioE unit
| LoggerLog (message functionContext : string) : ioE unit
| LoggerError (message stack functionContext : string) : ioE unit
| FsAccess (path : string) : ioE (Settled unit)
| FsMkdir (path : string) : ioE (Settled unit)
| FsWriteFile (path : string) (data : Buffer) : ioE (Settled unit)
| FsUnlink (path : string) : ioE (Settled unit)
| PutObject (client : Minio.Client) (bucketName objectName : string)
    (data : Buffer) : ioE (Settled unit)
| RemoveObject (client : Minio.Client) (bucketName objectName : string)
    : ioE (Settled unit)
| PresignedGetObject (client : Minio.Client)
    (bucketName objectName : string) : ioE (Settled string).

(** A computation that asks requests and continues with the answers. *)
Inductive Prog (R : Type) : Type :=
| Ret (r : R)
| Vis {X : Type} (e : ioE X) (k : X → Prog R).
Arguments Ret {R} r.
Arguments Vis {R X} e k.

Fixpoint bind {A B : Type} (m : Prog A) (f : A → Prog B) : Prog B :=
  match m with
  | Ret a => f a
  | Vis e k => Vis e (λ x, bind (k x) f)
  end.

(** The body of a function that may [throw]: it ends with a completion. *)
Definition Async (A : Type) : Type := Prog (Completion A).

Definition ret {A : Type} (a : A) : Async A := Ret (Normal a).
Definition throw {A : Type} (e : Thrown) : Async A := Ret (Throw e).

Definition andThen {A B : Type} (m : Async A) (f : A → Async B) : Async B :=
  bind m (λ c, match c with
               | Normal a => f a
               | Throw e => Ret (Throw e)
               end).

(** [try { m } catch (e) { handler e }] *)
Definition tryCatch {A : Type} (m : Async A) (handler : Thrown → Async A)
    : Async A :=
  bind m (λ c, match c with
               | Normal a => Ret (Normal a)
               | Throw e => handler e
               end).

(** A call that cannot fail. *)
Definition call {X : Type} (e : ioE X) : Async X :=
  Vis e (λ x, Ret (Normal x)).

(** [await] of a promise-returning call: the value of a fulfilled
    promise, the reason of a rejected one thrown. *)
Definition await {X : Type} (e : ioE (Settled X)) : Async X :=
  Vis e (λ answer, match answer with
                   | Fulfilled x => Ret (Normal x)
                   | Rejected err => Ret (Throw (Native err))
                   end).

(** Reading a property of [o], which may be [undefined]. *)
Definition member {A : Type} (o : option A) (prop : string) : Async A :=
  match o with
  | Some a => ret a
  | None => throw (Native (TypeError_undefined prop))
  end.

(** *** Running against answers *)

(** Whatever answers the requests, with a state of its own. *)
Definition Handler (S : Type) : Type := ∀ X : Type, ioE X → S → X * S.

(** One request together with the answer it got. *)
Inductive Call : Type :=
| Answered {X : Type} (e : ioE X) (answer : X).

(** The result, the final state of the handler, and the calls made, in
    the order they were made. *)
Fixpoint run {S R : Type} (h : Handler S) (p : Prog R) (s : S)
    : R * S * list Call :=
  match p with
  | Ret r => (r, s, [])
  | Vis e k =>
      let '(x, s1) := h _ e s in
      let '(r, s2, calls) := run h (k x) s1 in
      (r, s2, Answered e x :: calls)
  end.

Definition isFsWriteFile (c : Call) : bool :=
  match c with
  | Answered (FsWriteFile _ _) _ => true
  | _ => false
  end.

(** The calls that reach the file system or the object store, by name
    and arguments, without the logger's. *)
Inductive Request : Type :=
| access (path : string)
| mkdir (path : string)
| writeFile (path : string) (data : Buffer)
| unlink (path : string)
| putObject (bucketName objectName : string) (data : Buffer)
| removeObject (bucketName objectName : string)
| presignedGetObject (bucketName objectName : string).

Definition requestOf (c : Call) : option Request :=
  match c with
  | Answered (FsAccess p) _ => Some (access p)
  | Answered (FsMkdir p) _ => Some (mkdir p)
  | Answered (FsWriteFile p d) _ => Some (writeFile p d)
  | Answered (FsUnlink p) _ => Some (unlink p)
  | Answered (PutObject _ b o d) _ => Some (putObject b o d)
  | Answered (RemoveObject _ b o) _ => Some (removeObject b o)
  | Answered (PresignedGetObject _ b o) _ => Some (presignedGetObject b o)
  | Answered _ _ => None
  end.

Definition requests (calls : list Call) : list Request :=
  omap requestOf calls.

End Io.

(** [x ← m; k] is [const x = m; k] where [m] may throw, and [m ;; k] is
    [m; k]. *)
Global Instance Async_ret : MRet Io.Async := @Io.ret.
Global Instance Async_bind : MBind Io.Async := λ A B f m, Io.andThen m f.

(** ** Configuration *)

Module Config.

(** Modelled from the spec: [backend-type.enum.ts] is not among the
    sources; [backend.use] is an enum selecting [filesystem] or [s3]. *)
Inductive BackendType : Type := FILESYSTEM | S3.

Global Instance BackendType_eq_dec : EqDecision BackendType.
Proof. solve_decision. Defined.

(** Modelled from the spec: [config/media.config.ts] is not among the
    sources; the configuration surface is [backend.use],
    [backend.filesystem.uploadPath] and
    [backend.s3.{endPoint, accessKeyId, secretAccessKey, bucket, region,
    pathStyle}]. *)
Record FilesystemConfig : Type := MkFilesystemConfig {
  uploadPath : string
}.

Record S3Config : Type := MkS3Config {
  endPoint : string;
  accessKeyId : string;
  secretAccessKey : string;
  bucket : string;
  region : string;
  pathStyle : bool
}.

Record BackendConfig : Type := MkBackendConfig {
  use : BackendType;
  filesystem : FilesystemConfig;
  s3 : S3Config
}.

Record MediaConfig : Type := MkMediaConfig {
  backend : BackendConfig
}.

End Config.

(** ** [class FilesystemBackend] *)

Module FilesystemBackend.
Import Js Io.

(** The instance; the logger is reached through the [Logger...]
    requests. *)
Record t : Type := Mk {
  mediaConfig : Config.MediaConfig;
  uploadDirectory : string
}.

Definition constructor (mediaConfig : Config.MediaConfig) : Async t :=
  call (LoggerSetContext "FilesystemBackend") ;;
  mret {| mediaConfig := mediaConfig;
          uploadDirectory :=
            Config.uploadPath (Config.filesystem (Config.backend mediaConfig)) |}.

Definition getFilePath (this : t) (fileName : string) : string :=
  Path.join [uploadDirectory this; fileName].

Definition ensureDirectory (this : t) : Async unit :=
  call (LoggerDebug
          ("Ensuring presence of directory at " +:+ uploadDirectory this)
          "ensureDirectory") ;;
  tryCatch (await (FsAccess (uploadDirectory this)))
    (λ _,
      tryCatch
        (call (LoggerDebug
                 ("The directory '" +:+ uploadDirectory this
                  +:+ "' can't be accessed. Trying to create the directory")
                 "ensureDirectory") ;;
         await (FsMkdir (uploadDirectory this)))
        (λ e,
          call (LoggerError (messageOf e) (stackOf e) "ensureDirectory") ;;
          throw (MediaBackendError
                   ("Could not create '" +:+ uploadDirectory this +:+ "'")))).

Definition saveFile (this : t) (uuid : string) (buffer : Buffer)
    : Async Null :=
  let filePath := getFilePath this uuid in
  call (LoggerDebug ("Writing uploaded file to '" +:+ filePath +:+ "'")
          "saveFile") ;;
  ensureDirectory this ;;
  tryCatch
    (await (FsWriteFile filePath buffer) ;;
     mret null)
    (λ e,
      call (LoggerError (messageOf e) (stackOf e) "saveFile") ;;
      throw (MediaBackendError ("Could not save file '" +:+ filePath +:+ "'"))).

Definition deleteFile (this : t) (uuid : string) : Async unit :=
  let filePath := getFilePath this uuid in
  tryCatch
    (await (FsUnlink filePath))
    (λ e,
      call (LoggerError (messageOf e) (stackOf e) "deleteFile") ;;
      throw (MediaBackendError
               ("Could not delete file '" +:+ filePath +:+ "'"))).

(** [Promise.resolve(`/uploads/${uuid}`)]: no request at all. *)
Definition getFileUrl (this : t) (uuid : string) : Async string :=
  mret ("/uploads/" +:+ uuid).

End FilesystemBackend.

(** ** [class S3Backend] *)

Module S3Backend.
Import Js Io.

(** [config] and [client] are declared without initializer: they are
    [undefined] ([None]) until the constructor assigns them. *)
Record t : Type := Mk {
  mediaConfig : Config.MediaConfig;
  config : option Config.S3Config;
  client : option Minio.Client
}.

Definition determinePort (url : Url.URL) : option Z :=
  let port := parseInt (Url.port url) in
  match port with
  | None => None
  | Some port => Some port
  end.

Section Constructor.

(** [new URL(input)]: the parsed URL, or [None] when the constructor
    throws its [TypeError] on an input that is no URL. *)
Variable newURL : string → option Url.URL.

(** [new Client(options)] checks the options before it builds the
    client: [refusal options] is the error it throws when it does not take
    them (an [InvalidEndpointError] for a host name that is empty or in
    brackets, an [InvalidArgumentError] for a port out of range, ...), and
    [None] when the client is built. *)
Variable refusal : Minio.Client → option Error.

Definition constructor (mediaConfig : Config.MediaConfig) : Async t :=
  call (LoggerSetContext "S3Backend") ;;
  if decide (Config.use (Config.backend mediaConfig) ≠ Config.S3) then
    mret {| mediaConfig := mediaConfig; config := None; client := None |}
  else
    let config := Config.s3 (Config.backend mediaConfig) in
    match newURL (Config.endPoint config) with
    | None =>
        throw (Native {| name := "TypeError"; message := "Invalid URL";
                         stack := ""; code := "ERR_INVALID_URL" |})
    | Some url =>
        let isSecure := bool_decide (Url.protocol url = "https:") in
        let options :=
          {| Minio.endPoint := Url.hostname url;
             Minio.port := determinePort url;
             Minio.useSSL := isSecure;
             Minio.accessKey := Config.accessKeyId config;
             Minio.secretKey := Config.secretAccessKey config;
             Minio.pathStyle := Config.pathStyle config;
             Minio.region := Config.region config |} in
        match refusal options with
        | Some err => throw (Native err)
        | None =>
            mret {| mediaConfig := mediaConfig;
                    config := Some config;
                    client := Some options |}
        end
    end.

End Constructor.

Definition saveFile (this : t) (uuid : string) (buffer : Buffer)
    : Async Null :=
  tryCatch
    (client ← member (client this) "putObject";
     config ← member (config this) "bucket";
     await (PutObject client (Config.bucket config) uuid buffer) ;;
     call (LoggerLog ("Uploaded file " +:+ uuid) "saveFile") ;;
     mret null)
    (λ e,
      call (LoggerError (messageOf e) (stackOf e) "saveFile") ;;
      throw (MediaBackendError ("Could not save file " +:+ uuid +:+ " on S3"))).

Definition deleteFile (this : t) (uuid : string) : Async unit :=
  tryCatch
    (client ← member (client this) "removeObject";
     config ← member (config this) "bucket";
     await (RemoveObject client (Config.bucket config) uuid) ;;
     call (LoggerLog ("Deleted uploaded file " +:+ uuid) "deleteFile"))
    (λ e,
      call (LoggerError (messageOf e) (stackOf e) "deleteFile") ;;
      throw (MediaBackendError ("Could not delete '" +:+ uuid +:+ "' on S3"))).

Definition getFileUrl (this : t) (uuid : string) : Async string :=
  tryCatch
    (client ← member (client this) "presignedGetObject";
     config ← member (config this) "bucket";
     await (PresignedGetObject client (Config.bucket config) uuid))
    (λ e,
      call (LoggerError (messageOf e) (stackOf e) "getFileUrl") ;;
      throw (MediaBackendError
               ("Could not get URL for '" +:+ uuid +:+ "' on S3"))).

End S3Backend.

(** ** A world to run the code against

    A file system without symbolic links, which resolves a path name the
    way [Path.normalize] does (segment by segment, [".."] cancelling the
    segment before it), plus an object store.  The root, the working
    directory and the directories above it always exist.  The device
    works unless a fault is injected. *)

Module World.
Import Js Io.

Inductive Node : Type :=
| Dir
| File (content : Buffer).

Record t : Type := Mk {
  files : gmap (bool * list string) Node;
  buckets : gset string;
  objects : gmap (string * string) Buffer;
  now : nat
}.

(** The entry a path names: whether it starts at the root, and the
    segments from there (or from the working directory). *)
Definition keyOf (path : string) : option (bool * list string) :=
  if decide (path = "") then None
  else Some (Path.isAbsolute path,
             Path.normalizeSegments (negb (Path.isAbsolute path))
               (Path.segments path)).

Definition isBase (k : bool * list string) : bool :=
  forallb (λ seg, bool_decide (seg = "..")) k.2.

Definition nodeAt (fs : gmap (bool * list string) Node)
    (k : bool * list string) : option Node :=
  if isBase k then Some Dir else fs !! k.

Definition parentOf (k : bool * list string) : bool * list string :=
  (k.1, removelast k.2).

Definition fsError (code syscall path : string) : Error :=
  {| name := "Error";
     message := code +:+ ": " +:+ syscall +:+ " '" +:+ path +:+ "'";
     stack := "Error: " +:+ code +:+ ": " +:+ syscall +:+ " '" +:+ path +:+ "'";
     code := code |}.

Definition withFiles (w : t) (fs : gmap (bool * list string) Node) : t :=
  {| files := fs; buckets := buckets w; objects := objects w; now := now w |}.

Definition fsAccess (path : string) (w : t) : Settled unit * t :=
  match keyOf path with
  | None => (Rejected (fsError "ENOENT" "access" path), w)
  | Some k =>
      match nodeAt (files w) k with
      | Some _ => (Fulfilled (), w)
      | None => (Rejected (fsError "ENOENT" "access" path), w)
      end
  end.

Definition fsMkdir (path : string) (w : t) : Settled unit * t :=
  match keyOf path with
  | None => (Rejected (fsError "ENOENT" "mkdir" path), w)
  | Some k =>
      match nodeAt (files w) k with
      | Some _ => (Rejected (fsError "EEXIST" "mkdir" path), w)
      | None =>
          match nodeAt (files w) (parentOf k) with
          | Some Dir => (Fulfilled (), withFiles w (<[k := Dir]> (files w)))
          | Some (File _) => (Rejected (fsError "ENOTDIR" "mkdir" path), w)
          | None => (Rejected (fsError "ENOENT" "mkdir" path), w)
          end
      end
  end.

(** A failure of the device under a request (no space left, an I/O
    error, a permission withdrawn): the error the request is rejected
    with and, for [fs.writeFile], the number of bytes that had been written
    when it struck. *)
Record Fault : Type := MkFault {
  written : nat;
  reason : Error
}.

(** [fs.writeFile(path, data, null)]: opens the file with flag ['w'],
    which creates it or empties it, and then writes.  A name with a
    trailing separator names no file.  What is wrong with the name is
    reported by the opening, before anything is changed; a failure of the
    device strikes after it, and leaves the file with the bytes written
    so far. *)
Definition fsWriteFile (fault : option Fault) (path : string) (data : Buffer)
    (w : t) : Settled unit * t :=
  if Path.trailingSeparator path
  then (Rejected (fsError "EISDIR" "open" path), w)
  else
    match keyOf path with
    | None => (Rejected (fsError "ENOENT" "open" path), w)
    | Some k =>
        match nodeAt (files w) k with
        | Some Dir => (Rejected (fsError "EISDIR" "open" path), w)
        | _ =>
            match nodeAt (files w) (parentOf k) with
            | Some Dir =>
                match fault with
                | None =>
                    (Fulfilled (), withFiles w (<[k := File data]> (files w)))
                | Some f =>
                    (Rejected (reason f),
                     withFiles w
                       (<[k := File (take (written f) data)]> (files w)))
                end
            | Some (File _) => (Rejected (fsError "ENOTDIR" "open" path), w)
            | None => (Rejected (fsError "ENOENT" "open" path), w)
            end
        end
    end.

Definition fsUnlink (path : string) (w : t) : Settled unit * t :=
  if Path.trailingSeparator path
  then (Rejected (fsError "ENOTDIR" "unlink" path), w)
  else
    match keyOf path with
    | None => (Rejected (fsError "ENOENT" "unlink" path), w)
    | Some k =>
        match nodeAt (files w) k with
        | Some (File _) => (Fulfilled (), withFiles w (delete k (files w)))
        | Some Dir => (Rejected (fsError "EISDIR" "unlink" path), w)
        | None => (Rejected (fsError "ENOENT" "unlink" path), w)
        end
    end.

Definition s3Error (code : string) : Error :=
  {| name := "S3Error"; message := code; stack := "S3Error: " +:+ code;
     code := code |}.

Definition hasBucket (w : t) (bucketName : string) : bool :=
  bool_decide (bucketName ∈ buckets w).

(** The store accepts an object for any existing bucket and replaces
    the object of the same name. *)
Definition s3PutObject (bucketName objectName : string) (data : Buffer)
    (w : t) : Settled unit * t :=
  if hasBucket w bucketName then
    (Fulfilled (),
     {| files := files w; buckets := buckets w;
        objects := <[(bucketName, objectName) := data]> (objects w);
        now := now w |})
  else (Rejected (s3Error "NoSuchBucket"), w).

(** Removing an object that is not there is no error for S3. *)
Definition s3RemoveObject (bucketName objectName : string) (w : t)
    : Settled unit * t :=
  if hasBucket w bucketName then
    (Fulfilled (),
     {| files := files w; buckets := buckets w;
        objects := delete (bucketName, objectName) (objects w);
        now := now w |})
  else (Rejected (s3Error "NoSuchBucket"), w).

(** A signed URL is computed by the client from its options and the
    time of the call; the signature itself is left out. *)
Definition s3PresignedGetObject (client : Minio.Client)
    (bucketName objectName : string) (w : t) : Settled string * t :=
  (Fulfilled
     ((if Minio.useSSL client then "https://" else "http://")
      +:+ Minio.endPoint client
      +:+ from_option (λ p, ":" +:+ pretty p) "" (Minio.port client)
      +:+ "/" +:+ bucketName +:+ "/" +:+ objectName
      +:+ "?X-Amz-Date=" +:+ pretty (now w)),
   {| files := files w; buckets := buckets w; objects := objects w;
      now := S (now w) |}).

(** The world answering one request, the device working. *)
Definition handle : Handler t :=
  λ X e,
    match e in ioE X return t → X * t with
    | LoggerSetContext _ => λ w, ((), w)
    | LoggerDebug _ _ => λ w, ((), w)
    | LoggerLog _ _ => λ w, ((), w)
    | LoggerError _ _ _ => λ w, ((), w)
    | FsAccess path => fsAccess path
    | FsMkdir path => fsMkdir path
    | FsWriteFile path data => fsWriteFile None path data
    | FsUnlink path => fsUnlink path
    | PutObject _ bucketName objectName data =>
        s3PutObject bucketName objectName data
    | RemoveObject _ bucketName objectName =>
        s3RemoveObject bucketName objectName
    | PresignedGetObject client bucketName objectName =>
        s3PresignedGetObject client bucketName objectName
    end.

(** The world answering one request while the device fails with
    [fault]: the request is rejected, and only [fs.writeFile] has changed
    something by then. *)
Definition handleFailing (fault : Fault) : Handler t :=
  λ X e,
    match e in ioE X return t → X * t with
    | LoggerSetContext _ => λ w, ((), w)
    | LoggerDebug _ _ => λ w, ((), w)
    | LoggerLog _ _ => λ w, ((), w)
    | LoggerError _ _ _ => λ w, ((), w)
    | FsAccess _ => λ w, (Rejected (reason fault), w)
    | FsMkdir _ => λ w, (Rejected (reason fault), w)
    | FsWriteFile path data => fsWriteFile (Some fault) path data
    | FsUnlink _ => λ w, (Rejected (reason fault), w)
    | PutObject _ _ _ _ => λ w, (Rejected (reason fault), w)
    | RemoveObject _ _ _ => λ w, (Rejected (reason fault), w)
    | PresignedGetObject _ _ _ => λ w, (Rejected (reason fault), w)
    end.

Definition isLogger {X : Type} (e : ioE X) : bool :=
  match e with
  | LoggerSetContext _ | LoggerDebug _ _ | LoggerLog _ _ | LoggerError _ _ _ =>
      true
  | _ => false
  end.

(** The world shared with other actors: before each request that
    reaches the file system or the store, the next of [others] acts on
    the world. *)
Definition handleAmong : Handler (list (t → t) * t) :=
  λ X e '(others, w),
    if isLogger e then
      let '(x, w') := handle X e w in (x, (others, w'))
    else
      match others with
      | [] => let '(x, w') := handle X e w in (x, ([], w'))
      | other :: others' =>
          let '(x, w') := handle X e (other w) in (x, (others', w'))
      end.

(** The world on a device that may fail: [faults] says, for one
    request to the file system or the store after the other, whether the
    device fails under it, and how; once the list is used up the device
    works. *)
Definition handleFaulty : Handler (list (option Fault) * t) :=
  λ X e '(faults, w),
    if isLogger e then
      let '(x, w') := handle X e w in (x, (faults, w'))
    else
      match faults with
      | [] => let '(x, w') := handle X e w in (x, ([], w'))
      | None :: faults' =>
          let '(x, w') := handle X e w in (x, (faults', w'))
      | Some fault :: faults' =>
          let '(x, w') := handleFailing fault X e w in (x, (faults', w'))
      end.

(** Whether [fs.writeFile] can write to [path]: the path names no
    directory, and the directory it lies in exists. *)
Definition writable (w : t) (path : string) : bool :=
  negb (Path.trailingSeparator path)
  && match keyOf path with
     | None => false
     | Some k =>
         match nodeAt (files w) k with
         | Some Dir => false
         | _ =>
             match nodeAt (files w) (parentOf k) with
             | Some Dir => true
             | _ => false
             end
         end
     end.

(** Reading the storage location back: the content of the file a path
    names, and of an object of a bucket. *)
Definition readFile (w : t) (path : string) : option Buffer :=
  if Path.trailingSeparator path then None
  else
    match keyOf path with
    | None => None
    | Some k =>
        match nodeAt (files w) k with
        | Some (File content) => Some content
        | _ => None
        end
    end.

Definition exists_ (w : t) (path : string) : bool :=
  match keyOf path with
  | None => false
  | Some k => bool_decide (is_Some (nodeAt (files w) k))
  end.

Definition isDirectory (w : t) (path : string) : bool :=
  match keyOf path with
  | None => false
  | Some k =>
      match nodeAt (files w) k with
      | Some Dir => true
      | _ => false
      end
  end.

(** The flat layout: the entry [path] names lies directly inside the
    directory [dir] names, under a name of its own. *)
Definition inDirectory (dir path : string) : bool :=
  match keyOf path with
  | None => false
  | Some k =>
      bool_decide
        (k.1 = Path.isAbsolute dir
         ∧ removelast k.2
           = Path.normalizeSegments (negb (Path.isAbsolute dir))
               (Path.segments dir)
         ∧ k.2 ≠ []
         ∧ last k.2 ≠ Some "..")
  end.

(** Whether [dir] names the root, which has nothing beside it. *)
Definition isRoot (dir : string) : bool :=
  Path.isAbsolute dir
  && bool_decide (Path.normalizeSegments false (Path.segments dir) = []).

Definition getObject (w : t) (bucketName objectName : string)
    : option Buffer :=
  objects w !! (bucketName, objectName).

Definition empty : t :=
  {| files := ∅; buckets := ∅; objects := ∅; now := 0 |}.

End World.

(** ** Vocabulary of the storage contract *)

Module Contract.
Import Js Io.

(** [P] holds of the result and of the calls made, whatever the
    requests are answered. *)
Fixpoint always {R : Type} (P : R → list Call → Prop) (p : Prog R) : Prop :=
  match p with
  | Ret r => P r []
  | Vis e k => ∀ x, always (λ r calls, P r (Answered e x :: calls)) (k x)
  end.

(** A request to the file system or the store whose promise was
    rejected; the rejection of [fs.access] apart, which
    [ensureDirectory] takes as "the directory is missing". *)
Definition failed (c : Call) : bool :=
  match c with
  | Answered e answer =>
      match e in ioE X return X → bool with
      | FsMkdir _ | FsWriteFile _ _ | FsUnlink _
      | PutObject _ _ _ _ | RemoveObject _ _ _ =>
          λ a, match a with Rejected _ => true | Fulfilled _ => false end
      | PresignedGetObject _ _ _ =>
          λ a, match a with Rejected _ => true | Fulfilled _ => false end
      | _ => λ _, false
      end answer
  end.

Definition mkdirRejected (c : Call) : bool :=
  match c with
  | Answered e answer =>
      match e in ioE X return X → bool with
      | FsMkdir _ =>
          λ a, match a with Rejected _ => true | Fulfilled _ => false end
      | _ => λ _, false
      end answer
  end.

(** The code of the error that rejected [fs.mkdir], if it was. *)
Definition mkdirCode (c : Call) : option string :=
  match c with
  | Answered e answer =>
      match e in ioE X return X → option string with
      | FsMkdir _ =>
          λ a, match a with
               | Rejected err => Some (code err)
               | Fulfilled _ => None
               end
      | _ => λ _, None
      end answer
  end.

(** The single error kind: an operation that fails throws a
    [MediaBackendError] whose message is one of [messages], and an
    operation that returns had no failed request. *)
Definition surfaced {A : Type} (messages : list string)
    (c : Completion A) (calls : list Call) : Prop :=
  match c with
  | Normal _ => existsb failed calls = false
  | Throw e => ∃ m, m ∈ messages ∧ e = MediaBackendError m
  end.

(** What an S3 endpoint URL must give the client. *)
Definition portOfUrl (url : Url.URL) : option Z :=
  if decide (Url.port url = "") then None
  else Some (Url.decimalValue 0 (Url.port url)).

(** Whether a separator occurs in [s]. *)
Fixpoint hasSeparator (s : string) : bool :=
  match s with
  | String c rest => Path.isPosixPathSeparator c || hasSeparator rest
  | EmptyString => false
  end.

(** A name that is one segment of a path and stays one: no separator
    in it, and none of [""], ["."], [".."]. *)
Definition plainName (s : string) : bool :=
  negb (hasSeparator s)
  && negb (bool_decide (s = "")) && negb (bool_decide (s = "."))
  && negb (bool_decide (s = "..")).

(** An identifier normalized on its own, as a relative path: the
    [".."] segments it could not cancel, then the names it keeps. *)
Definition ownForm (id : string) : list string :=
  Path.normalizeSegments true (Path.segments id).

(** The segments [normalizeString] keeps, last one first: names proper,
    below which there are [".."] only, and only when the path may climb
    above its start. *)
Fixpoint kept (allowAboveRoot : bool) (res : list string) : Prop :=
  match res with
  | [] => True
  | top :: below =>
      hasSeparator top = false ∧ top ≠ "" ∧ top ≠ "."
      ∧ (top = ".." →
         allowAboveRoot = true ∧ Forall (λ seg, seg = "..") below)
      ∧ kept allowAboveRoot below
  end.

End Contract.

(** ** Sample configurations and worlds *)

Module Demo.

Definition mediaConfig (use : Config.BackendType) : Config.MediaConfig :=
  {| Config.backend :=
       {| Config.use := use;
          Config.filesystem := {| Config.uploadPath := "uploads" |};
          Config.s3 :=
            {| Config.endPoint := "https://s3.example.org:9000";
               Config.accessKeyId := "key";
               Config.secretAccessKey := "secret";
               Config.bucket := "media";
               Config.region := "eu-central-1";
               Config.pathStyle := true |} |} |}.

Definition filesystemBackend : FilesystemBackend.t :=
  {| FilesystemBackend.mediaConfig := mediaConfig Config.FILESYSTEM;
     FilesystemBackend.uploadDirectory := "uploads" |}.

(** The URL object [new URL("https://s3.example.org:9000")] gives. *)
Definition endpoint : Url.URL :=
  {| Url.protocol := "https:"; Url.hostname := "s3.example.org";
     Url.port := "9000" |}.

(** [new URL("file:///srv")] is a URL without host name. *)
Definition hostless : Url.URL :=
  {| Url.protocol := "file:"; Url.hostname := ""; Url.port := "" |}.

Definition newURL (input : string) : option Url.URL :=
  if decide (input = "https://s3.example.org:9000") then Some endpoint
  else if decide (input = "file:///srv") then Some hostless
  else None.

(** A client library that takes every host name but the empty one. *)
Definition refusal (options : Minio.Client) : option Js.Error :=
  if decide (Minio.endPoint options = "") then
    Some {| Js.name := "InvalidEndpointError";
            Js.message := "Invalid endPoint : ";
            Js.stack := ""; Js.code := "" |}
  else None.

(** A configuration that selects S3 with the endpoint [file:///srv]. *)
Definition hostlessConfig : Config.MediaConfig :=
  {| Config.backend :=
       {| Config.use := Config.S3;
          Config.filesystem := {| Config.uploadPath := "uploads" |};
          Config.s3 :=
            {| Config.endPoint := "file:///srv";
               Config.accessKeyId := "key";
               Config.secretAccessKey := "secret";
               Config.bucket := "media";
               Config.region := "eu-central-1";
               Config.pathStyle := true |} |} |}.


Definition s3Backend : S3Backend.t :=
  {| S3Backend.mediaConfig := mediaConfig Config.S3;
     S3Backend.config := Some (Config.s3 (Config.backend (mediaConfig Config.S3)));
     S3Backend.client :=
       Some {| Minio.endPoint := "s3.example.org";
               Minio.port := Some 9000%Z;
               Minio.useSSL := true;
               Minio.accessKey := "key";
               Minio.secretKey := "secret";
               Minio.pathStyle := true;
               Minio.region := "eu-central-1" |} |}.

(** A world with the bucket of the configuration and nothing else. *)
Definition world : World.t :=
  {| World.files := ∅; World.buckets := {["media"]};
     World.objects := ∅; World.now := 0 |}.

(** Another actor creating the directory [uploads]. *)
Definition mkdirUploads (w : World.t) : World.t :=
  World.withFiles w (<[(false, ["uploads"]) := World.Dir]> (World.files w)).

(** A world where the upload path names a regular file, and the backend
    configured with it. *)
Definition fileAsDirectory : World.t :=
  {| World.files := {[(false, ["up"]) := World.File [Byte.x01]]};
     World.buckets := ∅; World.objects := ∅; World.now := 0 |}.

Definition misconfigured : FilesystemBackend.t :=
  {| FilesystemBackend.mediaConfig := mediaConfig Config.FILESYSTEM;
     FilesystemBackend.uploadDirectory := "up" |}.

(** The runs the examples look at. *)
Definition saved :=
  Io.run World.handle
    (FilesystemBackend.saveFile filesystemBackend "abc" [Byte.x01]) world.

Definition savedAgain :=
  Io.run World.handle
    (FilesystemBackend.saveFile filesystemBackend "abc" [Byte.x02])
    saved.1.2.

Definition put :=
  Io.run World.handle (S3Backend.saveFile s3Backend "abc" [Byte.x01]) world.

Definition putAgain :=
  Io.run World.handle (S3Backend.saveFile s3Backend "abc" [Byte.x02])
    put.1.2.

(** [uploads] is missing at first, and appears between the first and
    the second request. *)
Definition raced :=
  Io.run World.handleAmong
    (FilesystemBackend.saveFile filesystemBackend "abc" [Byte.x01])
    ([id; mkdirUploads], World.empty).

Definition collided :=
  Io.run World.handle
    (FilesystemBackend.saveFile misconfigured "" [Byte.x02])
    fileAsDirectory.

Definition withB : World.t :=
  (Io.run World.handle
     (FilesystemBackend.saveFile filesystemBackend "b" [Byte.x07])
     World.empty).1.2.

End Demo.

(** ** Reading a run *)

Module Trace.
Import Js Io.

Definition fulfilled {X : Type} (a : Settled X) : bool :=
  match a with
  | Fulfilled _ => true
  | Rejected _ => false
  end.

(** A request that reached the file system or the store, with whether
    its promise was fulfilled. *)
Definition settlementOf (c : Call) : option (Request * bool) :=
  match c with
  | Answered e answer =>
      match e in ioE X return X → option (Request * bool) with
      | FsAccess p => λ a, Some (access p, fulfilled a)
      | FsMkdir p => λ a, Some (mkdir p, fulfilled a)
      | FsWriteFile p d => λ a, Some (writeFile p d, fulfilled a)
      | FsUnlink p => λ a, Some (unlink p, fulfilled a)
      | PutObject _ b o d => λ a, Some (putObject b o d, fulfilled a)
      | RemoveObject _ b o => λ a, Some (removeObject b o, fulfilled a)
      | PresignedGetObject _ b o =>
          λ a, Some (presignedGetObject b o, fulfilled a)
      | _ => λ _, None
      end answer
  end.

Definition settlements (calls : list Call) : list (Request * bool) :=
  omap settlementOf calls.

Definition reasonOf {X : Type} (a : Settled X) : option Error :=
  match a with
  | Fulfilled _ => None
  | Rejected err => Some err
  end.

(** A request whose promise was rejected, with the error it was rejected
    with. *)
Definition rejectionOf (c : Call) : option (Request * Error) :=
  match c with
  | Answered e answer =>
      match e in ioE X return X → option (Request * Error) with
      | FsAccess p => λ a, pair (access p) <$> reasonOf a
      | FsMkdir p => λ a, pair (mkdir p) <$> reasonOf a
      | FsWriteFile p d => λ a, pair (writeFile p d) <$> reasonOf a
      | FsUnlink p => λ a, pair (unlink p) <$> reasonOf a
      | PutObject _ b o d => λ a, pair (putObject b o d) <$> reasonOf a
      | RemoveObject _ b o => λ a, pair (removeObject b o) <$> reasonOf a
      | PresignedGetObject _ b o =>
          λ a, pair (presignedGetObject b o) <$> reasonOf a
      | _ => λ _, None
      end answer
  end.

(** What [logger.error] was given: message, stack, and the name of the
    method that logs. *)
Definition errorLogOf (c : Call) : option (string * string * string) :=
  match c with
  | Answered (LoggerError m st context) _ => Some (m, st, context)
  | Answered _ _ => None
  end.

Definition errorLog (calls : list Call) : list (string * string * string) :=
  omap errorLogOf calls.

(** What [logger.log] was given. *)
Definition infoLogOf (c : Call) : option (string * string) :=
  match c with
  | Answered (LoggerLog m context) _ => Some (m, context)
  | Answered _ _ => None
  end.

Definition infoLog (calls : list Call) : list (string * string) :=
  omap infoLogOf calls.

(** What [logger.setContext] was given. *)
Definition contextOf (c : Call) : option string :=
  match c with
  | Answered (LoggerSetContext context) _ => Some context
  | Answered _ _ => None
  end.

(** The rejections a method reports: [context] gives, for a request, the
    name under which its rejection is logged, if it is. *)
Definition reported (context : Request → option string) (calls : list Call)
    : list (string * string * string) :=
  omap (λ c, match rejectionOf c with
             | Some (request, err) =>
                 (λ name, (message err, stack err, name)) <$> context request
             | None => None
             end) calls.

(** The URLs [presignedGetObject] resolved with. *)
Definition presignedOf (c : Call) : option string :=
  match c with
  | Answered e answer =>
      match e in ioE X return X → option string with
      | PresignedGetObject _ _ _ =>
          λ a, match a with
               | Fulfilled url => Some url
               | Rejected _ => None
               end
      | _ => λ _, None
      end answer
  end.

(** The client a request to the store was made with. *)
Definition clientOf (c : Call) : option Minio.Client :=
  match c with
  | Answered (PutObject client _ _ _) _ => Some client
  | Answered (RemoveObject client _ _) _ => Some client
  | Answered (PresignedGetObject client _ _) _ => Some client
  | Answered _ _ => None
  end.

Definition isThrow {A : Type} (c : Completion A) : bool :=
  match c with
  | Throw _ => true
  | Normal _ => false
  end.

(** The names under which the methods log a rejection. *)
Definition saveFileContext (request : Request) : option string :=
  match request with
  | mkdir _ => Some "ensureDirectory"
  | writeFile _ _ => Some "saveFile"
  | _ => None
  end.

Definition unlinkContext (request : Request) : option string :=
  match request with
  | unlink _ => Some "deleteFile"
  | _ => None
  end.

Definition storeContext (name : string) (request : Request) : option string :=
  match request with
  | putObject _ _ _ | removeObject _ _ | presignedGetObject _ _ => Some name
  | _ => None
  end.

End Trace.

(** ** More sample worlds *)

Module Cases.

(** A backend whose upload path is written with a trailing separator. *)
Definition trailing : FilesystemBackend.t :=
  {| FilesystemBackend.mediaConfig := Demo.mediaConfig Config.FILESYSTEM;
     FilesystemBackend.uploadDirectory := "uploads/" |}.

(** A world where [uploads] exists and holds the file [abc]. *)
Definition stocked : World.t := Demo.saved.1.2.

(** Other actors: two that do nothing, then one that puts a file where
    [abc] goes. *)
Definition others : list (World.t → World.t) :=
  [id; id;
   λ w, World.withFiles w
          (<[(false, ["uploads"; "abc"]) := World.File [Byte.x09]]>
             (World.files w))].

(** A backend whose upload path lies in a directory that is missing. *)
Definition nested : FilesystemBackend.t :=
  {| FilesystemBackend.mediaConfig := Demo.mediaConfig Config.FILESYSTEM;
     FilesystemBackend.uploadDirectory := "data/uploads" |}.

(** The client of the sample S3 backend. *)
Definition client : Minio.Client :=
  {| Minio.endPoint := "s3.example.org";
     Minio.port := Some 9000%Z;
     Minio.useSSL := true;
     Minio.accessKey := "key";
     Minio.secretKey := "secret";
     Minio.pathStyle := true;
     Minio.region := "eu-central-1" |}.

(** Deleting [abc] where it is stored. *)
Definition deleted :=
  Io.run World.handleFaulty
    (FilesystemBackend.deleteFile Demo.filesystemBackend "abc")
    ([], stocked).

(** A device that has room for one more byte. *)
Definition diskFull : World.Fault :=
  {| World.written := 1;
     World.reason := World.fsError "ENOSPC" "write" "" |}.

(** Saving two bytes on that device: [fs.access] and [fs.mkdir] go
    through, [fs.writeFile] does not. *)
Definition interrupted :=
  Io.run World.handleFaulty
    (FilesystemBackend.saveFile Demo.filesystemBackend "abc"
       [Byte.x01; Byte.x02])
    ([None; None; Some diskFull], World.empty).

End Cases.

(** * Properties *)

Example join_plain : Path.join ["/srv/uploads"; "abc"] = "/srv/uploads/abc".
Proof. reflexivity. Qed.
Example join_dot : Path.join ["uploads"; "./a"] = "uploads/a".
Proof. reflexivity. Qed.
Example join_up : Path.join ["/srv/uploads"; "../etc/passwd"] = "/srv/etc/passwd".
Proof. reflexivity. Qed.
Example join_up_rel : Path.join ["uploads"; "../../x"] = "../x".
Proof. reflexivity. Qed.
Example join_trail : Path.join ["uploads/"; "a//b/"] = "uploads/a/b/".
Proof. reflexivity. Qed.
Example join_empty : Path.join [""; ""] = ".".
Proof. reflexivity. Qed.
Example join_root : Path.join ["/"; ".."] = "/".
Proof. reflexivity. Qed.
Example parseInt_9000 : Js.parseInt "9000" = Some 9000%Z.
Proof. reflexivity. Qed.
Example parseInt_empty : Js.parseInt "" = None.
Proof. reflexivity. Qed.
Example parseInt_hex : Js.parseInt " 0x1F" = Some 31%Z.
Proof. reflexivity. Qed.
Example parseInt_junk : Js.parseInt "80abc" = Some 80%Z.
Proof. reflexivity. Qed.
Example parseInt_nan : Js.parseInt "abc" = None.
Proof. reflexivity. Qed.

(** The sample S3 backend is the one the constructor builds. *)
Example constructor_builds_s3Backend :
  (Io.run World.handle
     (S3Backend.constructor Demo.newURL Demo.refusal
        (Demo.mediaConfig Config.S3))
     World.empty).1.1
  = Js.Normal Demo.s3Backend.
Proof. reflexivity. Qed.

Example constructor_rejects_invalid_endpoint :
  ∃ e, (Io.run World.handle
          (S3Backend.constructor (λ _, None) Demo.refusal
             (Demo.mediaConfig Config.S3))
          World.empty).1.1
       = Js.Throw (Js.Native e).
Proof. eexists. reflexivity. Qed.

(** An endpoint that is a URL, but whose host name the client library
    does not take: its error leaves the constructor as it is. *)
Example constructor_rejects_refused_host :
  ∃ e, (Io.run World.handle
          (S3Backend.constructor Demo.newURL Demo.refusal Demo.hostlessConfig)
          World.empty).1.1
       = Js.Throw (Js.Native e)
       ∧ Js.name e = "InvalidEndpointError".
Proof. eexists. split; reflexivity. Qed.


Section Runs.
Import Js Io Contract.

(** What holds whatever the answers holds of every run. *)
Lemma always_run {S R : Type} (P : R → list Call → Prop) (p : Prog R)
    (h : Handler S) (s : S) :
  always P p → P (run h p s).1.1 (run h p s).2.
Proof.
  revert P s. induction p as [r | X e k IH]; intros P s; simpl.
  - auto.
  - intros Hk. destruct (h X e s) as [x s1] eqn:Hh.
    specialize (IH x _ s1 (Hk x)).
    destruct (run h (k x) s1) as [[r s2] calls]. exact IH.
Qed.

End Runs.

(** Going through every answer a request can get. *)
Ltac answers :=
  repeat (simpl; intros;
          match goal with
          | x : Js.Settled _ |- _ => destruct x
          | x : unit |- _ => destruct x
          end);
  simpl.

Section Surfacing.
Import Js Io Contract.

Context {S : Type} (h : Handler S) (s : S).

(** C4: [FilesystemBackend.getFileUrl(id)] is exactly ["/uploads/<id>"]:
    it returns, never throws, and makes no request at all, so no I/O and
    no existence check happen, however the outside world would answer. *)
Theorem getFileUrl_is_uploads_id (this : FilesystemBackend.t) (uuid : string) :
  FilesystemBackend.getFileUrl this uuid = Ret (Normal ("/uploads/" +:+ uuid))
  ∧ run h (FilesystemBackend.getFileUrl this uuid) s
    = (Normal ("/uploads/" +:+ uuid), s, []).
Proof. split; reflexivity. Qed.

(** C6: whatever the file system, the store and the client answer, an
    operation of either backend that fails throws a [MediaBackendError]
    and nothing else, with a message fixed by the operation and the
    identifier or path (so the cause cannot be told from it); and no
    rejected request is passed over in silence: an operation that
    returns had none (the [fs.access] probe apart). *)
Theorem failures_surface_as_MediaBackendError
    (fsb : FilesystemBackend.t) (s3b : S3Backend.t)
    (uuid : string) (buffer : Buffer) :
  let filePath := FilesystemBackend.getFilePath fsb uuid in
  let fsSave := run h (FilesystemBackend.saveFile fsb uuid buffer) s in
  let fsDelete := run h (FilesystemBackend.deleteFile fsb uuid) s in
  let s3Save := run h (S3Backend.saveFile s3b uuid buffer) s in
  let s3Delete := run h (S3Backend.deleteFile s3b uuid) s in
  let s3Url := run h (S3Backend.getFileUrl s3b uuid) s in
  surfaced
    ["Could not create '" +:+ FilesystemBackend.uploadDirectory fsb +:+ "'";
     "Could not save file '" +:+ filePath +:+ "'"] fsSave.1.1 fsSave.2
  ∧ surfaced ["Could not delete file '" +:+ filePath +:+ "'"]
      fsDelete.1.1 fsDelete.2
  ∧ surfaced ["Could not save file " +:+ uuid +:+ " on S3"] s3Save.1.1 s3Save.2
  ∧ surfaced ["Could not delete '" +:+ uuid +:+ "' on S3"]
      s3Delete.1.1 s3Delete.2
  ∧ surfaced ["Could not get URL for '" +:+ uuid +:+ "' on S3"]
      s3Url.1.1 s3Url.2.
Proof.
  cbv zeta.
  repeat split; apply always_run.
  - unfold FilesystemBackend.saveFile, FilesystemBackend.ensureDirectory.
    answers; try reflexivity; eexists; (split; [ | reflexivity]); set_solver.
  - unfold FilesystemBackend.deleteFile.
    answers; try reflexivity; eexists; (split; [ | reflexivity]); set_solver.
  - unfold S3Backend.saveFile.
    destruct (S3Backend.client s3b), (S3Backend.config s3b);
      answers; try reflexivity; eexists; (split; [ | reflexivity]); set_solver.
  - unfold S3Backend.deleteFile.
    destruct (S3Backend.client s3b), (S3Backend.config s3b);
      answers; try reflexivity; eexists; (split; [ | reflexivity]); set_solver.
  - unfold S3Backend.getFileUrl.
    destruct (S3Backend.client s3b), (S3Backend.config s3b);
      answers; try reflexivity; eexists; (split; [ | reflexivity]); set_solver.
Qed.

(** C2, as the code has it: when [fs.mkdir] is rejected, for whatever
    reason and so also because the directory exists by now, [saveFile]
    does not go on to write: it throws the [MediaBackendError] of the
    directory. *)
Theorem saveFile_mkdir_rejected_is_fatal
    (this : FilesystemBackend.t) (uuid : string) (buffer : Buffer) :
  let r := run h (FilesystemBackend.saveFile this uuid buffer) s in
  existsb mkdirRejected r.2 = true →
  r.1.1 = Throw (MediaBackendError
                   ("Could not create '"
                    +:+ FilesystemBackend.uploadDirectory this +:+ "'"))
  ∧ existsb isFsWriteFile r.2 = false.
Proof.
  cbv zeta.
  apply (always_run (λ c calls,
    existsb mkdirRejected calls = true →
    c = Throw (MediaBackendError
                 ("Could not create '"
                  +:+ FilesystemBackend.uploadDirectory this +:+ "'"))
    ∧ existsb isFsWriteFile calls = false)).
  unfold FilesystemBackend.saveFile, FilesystemBackend.ensureDirectory.
  answers; try done.
Qed.

End Surfacing.

(** ** The constructor of [S3Backend] *)

Section Construction.
Import Js Io Contract.

Lemma isDecimalDigit_cases (c : ascii) :
  Url.isDecimalDigit c = true →
  c ∈ ["0"; "1"; "2"; "3"; "4"; "5"; "6"; "7"; "8"; "9"]%char.
Proof.
  destruct c as [[] [] [] [] [] [] [] []]; vm_compute; intros H;
    try discriminate H; set_solver.
Qed.

Lemma parseDigits_decimal (str : string) (acc : option Z) :
  Url.allDecimalDigits str = true →
  parseDigits 10 str acc =
    match str with
    | EmptyString => acc
    | _ => Some (Url.decimalValue (default 0%Z acc) str)
    end.
Proof.
  revert acc. induction str as [ | c rest IH]; intros acc; simpl; [done | ].
  intros [Hc Hrest]%andb_true_iff.
  assert (digitValue c = Some (Z.of_nat (nat_of_ascii c) - 48)%Z
          ∧ (Z.of_nat (nat_of_ascii c) - 48 < 10)%Z) as [-> Hlt].
  { apply isDecimalDigit_cases in Hc.
    repeat (apply elem_of_cons in Hc as [-> | Hc]; [by vm_compute | ]).
    by apply elem_of_nil in Hc. }
  apply Z.ltb_lt in Hlt. rewrite Hlt, (IH _ Hrest).
  destruct rest; reflexivity.
Qed.

(** On a string of decimal digits [parseInt] reads the number, and on
    the empty string it gives [NaN]. *)
Lemma parseInt_decimal (str : string) :
  Url.allDecimalDigits str = true →
  parseInt str = portOfUrl {| Url.protocol := ""; Url.hostname := "";
                              Url.port := str |}.
Proof.
  unfold portOfUrl; simpl.
  destruct str as [ | c rest]; [reflexivity | ].
  intros Hall. destruct (decide _) as [ | _]; [done | ].
  pose proof Hall as [Hc Hrest]%andb_true_iff.
  assert (parseInt (String c rest) =
          (λ mathInt, 1 * mathInt)%Z <$> parseDigits 10 (String c rest) None)
    as ->.
  { apply isDecimalDigit_cases in Hc.
    repeat (apply elem_of_cons in Hc as [-> | Hc];
            [ try reflexivity | ]).
    - destruct rest as [ | c' rest']; [reflexivity | ].
      apply andb_true_iff in Hrest as [Hc' _].
      apply isDecimalDigit_cases in Hc'.
      repeat (apply elem_of_cons in Hc' as [-> | Hc']; [reflexivity | ]).
      by apply elem_of_nil in Hc'.
    - by apply elem_of_nil in Hc. }
  rewrite (parseDigits_decimal _ _ Hall). simpl. f_equal.
  destruct (Url.decimalValue _ rest); reflexivity.
Qed.


Variable newURL : string → option Url.URL.
Variable refusal : Minio.Client → option Error.
Context {S : Type} (h : Handler S) (s : S).

(** C7: when the configuration selects S3, the constructor builds the
    options of the client from the parsed endpoint URL: the host is the
    URL's hostname, the port is the number the URL's port writes when the
    URL has one (the port of a [URL] object is empty or a decimal number
    up to 65535) and otherwise [undefined], which leaves the client its
    default, and the TLS flag is set exactly when the scheme is [https].
    These options are what [new Client] is called with: the constructor
    returns the instance that holds the client when the library takes
    them, and lets the library's error out, as it is, when it does not. *)
Theorem constructor_reads_endpoint
    (mediaConfig : Config.MediaConfig) (url : Url.URL) :
  let config := Config.s3 (Config.backend mediaConfig) in
  Config.use (Config.backend mediaConfig) = Config.S3 →
  newURL (Config.endPoint config) = Some url →
  Url.isPortString (Url.port url) = true →
  ∃ options : Minio.Client,
    Minio.endPoint options = Url.hostname url
    ∧ Minio.port options = parseInt (Url.port url)
    ∧ Minio.port options = portOfUrl url
    ∧ (Minio.useSSL options = true ↔ Url.protocol url = "https:")
    ∧ (run h (S3Backend.constructor newURL refusal mediaConfig) s).1.1
      = match refusal options with
        | None =>
            Normal {| S3Backend.mediaConfig := mediaConfig;
                      S3Backend.config := Some config;
                      S3Backend.client := Some options |}
        | Some err => Throw (Native err)
        end.
Proof.
  intros config Huse Hurl [Hport _]%andb_true_iff.
  exists {| Minio.endPoint := Url.hostname url;
            Minio.port := S3Backend.determinePort url;
            Minio.useSSL := bool_decide (Url.protocol url = "https:");
            Minio.accessKey := Config.accessKeyId config;
            Minio.secretKey := Config.secretAccessKey config;
            Minio.pathStyle := Config.pathStyle config;
            Minio.region := Config.region config |}.
  simpl. split; [reflexivity | ].
  assert (S3Backend.determinePort url = parseInt (Url.port url)) as Hdet
    by (unfold S3Backend.determinePort; by destruct (parseInt _)).
  split; [exact Hdet | ]. split; [ | split; [apply bool_decide_eq_true | ]].
  - rewrite Hdet, (parseInt_decimal _ Hport). unfold portOfUrl; simpl.
    by destruct (decide _).
  - unfold S3Backend.constructor. simpl.
    destruct (h _ _ s) as [[] s1]. simpl.
    destruct (decide _) as [Hne | _]; [by rewrite Huse in Hne | ].
    fold config. rewrite Hurl. cbv zeta.
    by destruct (refusal _).
Qed.

(** C8: built while the configuration selects another backend, the
    instance has neither client nor configuration, and each of its three
    operations then fails with a [MediaBackendError]: the [TypeError] of
    reading a property of [undefined] is caught inside the operation, and
    no request reaches the store. *)
Theorem inactive_S3Backend_throws_MediaBackendError
    (mediaConfig : Config.MediaConfig) :
  Config.use (Config.backend mediaConfig) ≠ Config.S3 →
  ∃ this,
    (run h (S3Backend.constructor newURL refusal mediaConfig) s).1.1
      = Normal this
    ∧ S3Backend.client this = None
    ∧ S3Backend.config this = None
    ∧ ∀ (S' : Type) (h' : Handler S') (s' : S')
        (uuid : string) (buffer : Buffer),
        let save := run h' (S3Backend.saveFile this uuid buffer) s' in
        let del := run h' (S3Backend.deleteFile this uuid) s' in
        let url := run h' (S3Backend.getFileUrl this uuid) s' in
        save.1.1 = Throw (MediaBackendError
                            ("Could not save file " +:+ uuid +:+ " on S3"))
        ∧ del.1.1 = Throw (MediaBackendError
                             ("Could not delete '" +:+ uuid +:+ "' on S3"))
        ∧ url.1.1 = Throw (MediaBackendError
                             ("Could not get URL for '" +:+ uuid +:+ "' on S3"))
        ∧ requests save.2 = [] ∧ requests del.2 = [] ∧ requests url.2 = [].
Proof.
  intros Huse. unfold S3Backend.constructor. simpl.
  destruct (h _ _ s) as [[] s1]. simpl.
  destruct (decide _) as [_ | Heq]; [ | done].
  eexists. do 3 (split; [reflexivity | ]).
  intros S' h' s' uuid buffer. simpl.
  repeat split;
    match goal with
    | |- context [h' ?X ?e s'] => destruct (h' X e s') as [[] ?]
    end; reflexivity.
Qed.

End Construction.

(** ** Paths and the entries they name *)

Section Paths.
Import Path Contract.

Lemma segments_nonempty (path : string) : segments path ≠ [].
Proof.
  destruct path as [ | c rest]; simpl; [done | ].
  destruct (isPosixPathSeparator c); [done | ].
  by destruct (segments rest).
Qed.

Lemma segments_glue (a b : string) :
  segments (a +:+ "/" +:+ b) = segments a ++ segments b.
Proof.
  induction a as [ | c a IH]; simpl; [done | ].
  destruct (isPosixPathSeparator c); rewrite IH; [done | ].
  pose proof (segments_nonempty a).
  by destruct (segments a).
Qed.

Lemma segments_plain (s : string) :
  hasSeparator s = false → segments s = [s].
Proof.
  induction s as [ | c s IH]; simpl; [done | ].
  intros [Hc Hs]%orb_false_iff. rewrite Hc, (IH Hs). done.
Qed.

Lemma segments_no_separator (path : string) :
  Forall (λ seg, hasSeparator seg = false) (segments path).
Proof.
  induction path as [ | c rest IH]; simpl.
  - by constructor.
  - destruct (isPosixPathSeparator c) eqn:Hc.
    + by constructor.
    + destruct (segments rest) as [ | seg segs]; inversion IH; subst;
        constructor; simpl; try done; by rewrite Hc.
Qed.

Lemma segments_concat (segs : list string) :
  segs ≠ [] → Forall (λ seg, hasSeparator seg = false) segs →
  segments (String.concat "/" segs) = segs.
Proof.
  induction segs as [ | x [ | y rest] IH]; intros Hne Hall; [done | | ].
  - simpl. apply segments_plain. by inversion Hall.
  - change (String.concat "/" (x :: y :: rest))
      with (x +:+ "/" +:+ String.concat "/" (y :: rest)).
    inversion Hall; subst.
    rewrite segments_glue, segments_plain, IH; done.
Qed.

Lemma normalizeStep_kept (a : bool) (res : list string) (seg : string) :
  kept a res → hasSeparator seg = false → kept a (normalizeStep a res seg).
Proof.
  intros Hres Hseg. unfold normalizeStep.
  repeat case_decide; subst; try done.
  destruct res as [ | top below]; [by destruct a | ].
  destruct Hres as (? & ? & ? & Hup & ?).
  case_decide; [ | done]. destruct a; [ | done].
  destruct (Hup ltac:(done)) as [_ Hbelow].
  simpl. repeat split; try done. by constructor.
Qed.

Lemma fold_normalizeStep_kept (a : bool) (segs res : list string) :
  kept a res → Forall (λ seg, hasSeparator seg = false) segs →
  kept a (fold_left (normalizeStep a) segs res).
Proof.
  revert res. induction segs as [ | seg segs IH]; intros res Hres Hall; [done | ].
  inversion Hall; subst. simpl. apply IH; [ | done].
  by apply normalizeStep_kept.
Qed.

Lemma fold_normalizeStep_again (a : bool) (res : list string) :
  kept a res → fold_left (normalizeStep a) (rev res) [] = res.
Proof.
  induction res as [ | top below IH]; [done | ].
  intros (Hsep & Hne & Hdot & Hup & Hbelow). simpl.
  rewrite fold_left_app, (IH Hbelow). simpl.
  unfold normalizeStep. repeat case_decide; try done. subst.
  destruct (Hup ltac:(done)) as [-> Hall].
  destruct below as [ | top' below']; [done | ].
  inversion Hall; subst. by case_decide.
Qed.

Lemma normalizeSegments_app (a : bool) (xs ys : list string) :
  normalizeSegments a (xs ++ ys) =
    rev (fold_left (normalizeStep a) ys (rev (normalizeSegments a xs))).
Proof.
  unfold normalizeSegments. by rewrite fold_left_app, rev_involutive.
Qed.

Lemma kept_normalizeSegments (a : bool) (path : string) :
  kept a (rev (normalizeSegments a (segments path))).
Proof.
  unfold normalizeSegments. rewrite rev_involutive.
  apply fold_normalizeStep_kept; [done | apply segments_no_separator].
Qed.

Lemma kept_names (a : bool) (res : list string) :
  kept a res → Forall (λ seg, hasSeparator seg = false ∧ seg ≠ "") res.
Proof.
  induction res as [ | top below IH]; [by constructor | ].
  intros (? & ? & ? & ? & ?). constructor; auto.
Qed.

Lemma normalizeSegments_again (a : bool) (N : list string) (pre post : bool) :
  kept a (rev N) →
  normalizeSegments a
    ((if pre then [""] else []) ++ N ++ (if post then [""] else [])) = N.
Proof.
  intros HN. unfold normalizeSegments.
  rewrite !fold_left_app.
  assert (fold_left (normalizeStep a) (if pre then [""] else []) [] = [])
    as -> by by destruct pre.
  rewrite <- (rev_involutive N) at 1.
  rewrite (fold_normalizeStep_again _ _ HN).
  destruct post; apply rev_involutive.
Qed.

Lemma concat_names_head (x : string) (rest : list string) :
  hasSeparator x = false → x ≠ "" →
  ∃ c tail, String.concat "/" (x :: rest) = String c tail
            ∧ isPosixPathSeparator c = false.
Proof.
  intros Hsep Hne. destruct x as [ | c x']; [done | ].
  apply orb_false_iff in Hsep as [Hc _].
  destruct rest; simpl; eauto.
Qed.

Lemma segments_trailing (s : string) :
  segments (s +:+ "/") = segments s ++ [""].
Proof. apply (segments_glue s ""). Qed.

(** The file system resolves a path as [normalize] does, so that
    normalizing first changes nothing to the entry named. *)
Lemma keyOf_nonempty (path : string) :
  path ≠ "" →
  World.keyOf path =
    Some (isAbsolute path,
          normalizeSegments (negb (isAbsolute path)) (segments path)).
Proof. intros Hne. unfold World.keyOf. by case_decide. Qed.

(** The file system resolves a path as [normalize] does, so that
    normalizing first changes nothing to the entry named. *)
Lemma keyOf_normalize (path : string) :
  path ≠ "" → World.keyOf (normalize path) = World.keyOf path.
Proof.
  intros Hne. rewrite (keyOf_nonempty path Hne).
  unfold normalize, normalizeString.
  case_decide; [done | ].
  pose proof (kept_normalizeSegments (negb (isAbsolute path)) path) as HN.
  destruct (normalizeSegments _ (segments path)) as [ | x rest] eqn:EN.
  - by destruct (isAbsolute path), (trailingSeparator path).
  - pose proof (kept_names _ _ HN) as Hnames.
    apply Forall_rev in Hnames. rewrite rev_involutive in Hnames.
    assert (Forall (λ seg, hasSeparator seg = false) (x :: rest)) as Hseps.
    { eapply Forall_impl; [exact Hnames | ]. by intros ? [? ?]. }
    inversion Hnames as [ | ? ? [Hx1 Hx2] _]; subst.
    destruct (concat_names_head x rest Hx1 Hx2) as (c & tail & Hcat & Hc).
    case_decide as Hempty; [by rewrite Hcat in Hempty | ].
    pose proof (segments_concat (x :: rest) ltac:(done) Hseps) as Hsegs.
    pose proof (normalizeSegments_again (negb (isAbsolute path)) (x :: rest)
                  (isAbsolute path) (trailingSeparator path) HN) as Hagain.
    destruct (isAbsolute path) eqn:Habs, (trailingSeparator path) eqn:Htrail.
    + rewrite keyOf_nonempty by done.
      change (segments ("/" +:+ String.concat "/" (x :: rest) +:+ "/"))
        with ("" :: segments (String.concat "/" (x :: rest) +:+ "/")).
      rewrite segments_trailing, Hsegs. do 2 f_equal. exact Hagain.
    + rewrite keyOf_nonempty by done.
      change (segments ("/" +:+ String.concat "/" (x :: rest)))
        with ("" :: segments (String.concat "/" (x :: rest))).
      rewrite Hsegs. rewrite app_nil_r in Hagain. do 2 f_equal. exact Hagain.
    + assert (isAbsolute (String.concat "/" (x :: rest) +:+ "/") = false)
        as Hrel by (rewrite Hcat; exact Hc).
      rewrite keyOf_nonempty by (rewrite Hcat; done).
      rewrite Hrel, segments_trailing, Hsegs.
      do 2 f_equal. exact Hagain.
    + assert (isAbsolute (String.concat "/" (x :: rest)) = false)
        as Hrel by (rewrite Hcat; exact Hc).
      rewrite keyOf_nonempty by (rewrite Hcat; done).
      rewrite Hrel, Hsegs.
      rewrite app_nil_r in Hagain. do 2 f_equal. exact Hagain.
Qed.

End Paths.

(** ** Where [getFilePath] points *)

Section Locations.
Import Path Contract.

Variable this : FilesystemBackend.t.

Let dir : string := FilesystemBackend.uploadDirectory this.
Let root : bool := isAbsolute dir.
Let base : list string := normalizeSegments (negb root) (segments dir).

Lemma plainName_inv (name : string) :
  plainName name = true →
  hasSeparator name = false ∧ name ≠ "" ∧ name ≠ "." ∧ name ≠ "..".
Proof.
  unfold plainName. rewrite !andb_true_iff, !negb_true_iff.
  intros [[[? ?%bool_decide_eq_false] ?%bool_decide_eq_false]
            ?%bool_decide_eq_false]. done.
Qed.

Lemma isAbsolute_glue (a b : string) :
  a ≠ "" → isAbsolute (a +:+ b) = isAbsolute a.
Proof. by destruct a. Qed.

(** The entry [getFilePath] names: the segments of the identifier,
    resolved from the upload directory on. *)
Lemma keyOf_getFilePath (fileName : string) :
  fileName ≠ "" → dir ≠ "" ∨ isAbsolute fileName = false →
  World.keyOf (FilesystemBackend.getFilePath this fileName) =
    Some (root,
          rev (fold_left (normalizeStep (negb root)) (segments fileName)
                 (rev base))).
Proof.
  intros Hname Hrel. unfold FilesystemBackend.getFilePath, join.
  fold dir. destruct (decide (dir = "")) as [Hdir | Hdir].
  - destruct Hrel as [ | Hrel]; [done | ].
    rewrite filter_cons_False by (intros H; by apply H).
    rewrite filter_cons_True by done. rewrite filter_nil.
    simpl String.concat.
    rewrite keyOf_normalize, keyOf_nonempty by done.
    subst base root. rewrite Hdir, Hrel. reflexivity.
  - rewrite !filter_cons_True by done. rewrite filter_nil.
    change (String.concat "/" [dir; fileName])
      with (dir +:+ "/" +:+ fileName).
    rewrite keyOf_normalize, keyOf_nonempty by (by destruct dir).
    rewrite isAbsolute_glue by done. fold root.
    rewrite segments_glue. unfold normalizeSegments.
    rewrite fold_left_app. subst base. unfold normalizeSegments.
    by rewrite rev_involutive.
Qed.

Lemma plainName_relative (name : string) :
  plainName name = true → isAbsolute name = false.
Proof.
  intros (Hsep & Hne & _)%plainName_inv.
  destruct name as [ | c rest]; [done | ].
  by apply orb_false_iff in Hsep as [? _].
Qed.

Lemma normalizeStep_plain (a : bool) (res : list string) (name : string) :
  plainName name = true → normalizeStep a res name = name :: res.
Proof.
  intros (_ & ? & ? & ?)%plainName_inv. unfold normalizeStep.
  by repeat case_decide.
Qed.

(** An identifier that is a plain name lands directly inside the upload
    directory, under that name. *)
Lemma keyOf_getFilePath_plain (name : string) :
  plainName name = true →
  World.keyOf (FilesystemBackend.getFilePath this name)
    = Some (root, base ++ [name]).
Proof.
  intros Hname. pose proof (plainName_inv _ Hname) as (Hsep & Hne & _).
  rewrite keyOf_getFilePath
    by (try right; auto using plainName_relative).
  rewrite (segments_plain _ Hsep). simpl.
  rewrite (normalizeStep_plain _ _ _ Hname). simpl.
  by rewrite rev_involutive.
Qed.

Lemma inDirectory_iff (path : string) (k : bool * list string) :
  World.keyOf path = Some k →
  World.inDirectory dir path = true ↔
    k.1 = root ∧ removelast k.2 = base ∧ k.2 ≠ [] ∧ last k.2 ≠ Some "..".
Proof.
  intros Hk. unfold World.inDirectory. rewrite Hk.
  apply bool_decide_eq_true.
Qed.

(** ["./name"] is [name] of the upload directory. *)
Lemma getFilePath_dot_inside (name : string) :
  plainName name = true →
  World.inDirectory dir (FilesystemBackend.getFilePath this ("./" +:+ name))
    = true.
Proof.
  intros Hname. pose proof (plainName_inv _ Hname) as (Hsep & Hne & _ & Hup).
  eapply inDirectory_iff.
  - rewrite keyOf_getFilePath by (try right; done).
    change ("./" +:+ name) with ("." +:+ "/" +:+ name).
    rewrite segments_glue, (segments_plain _ Hsep). simpl.
    change (normalizeStep (negb root) (rev base) ".") with (rev base).
    rewrite (normalizeStep_plain _ _ _ Hname). simpl.
    rewrite rev_involutive. reflexivity.
  - simpl. rewrite removelast_last, last_snoc.
    repeat split; [by destruct base | congruence].
Qed.

(** ["sub/name"] lies one level below the upload directory. *)
Lemma getFilePath_nested_outside (sub name : string) :
  plainName sub = true → plainName name = true →
  World.inDirectory dir
    (FilesystemBackend.getFilePath this (sub +:+ "/" +:+ name)) = false.
Proof.
  intros Hsub Hname.
  pose proof (plainName_inv _ Hname) as (Hsep & _).
  pose proof (plainName_inv _ Hsub) as (Hsep' & Hne' & _).
  apply not_true_is_false. intros Hin.
  eapply inDirectory_iff in Hin.
  2: { rewrite keyOf_getFilePath.
       - rewrite segments_glue, (segments_plain _ Hsep), (segments_plain _ Hsep').
         simpl.
         rewrite (normalizeStep_plain _ _ _ Hsub), (normalizeStep_plain _ _ _ Hname).
         simpl. rewrite rev_involutive, <- app_assoc. reflexivity.
       - by destruct sub.
       - right. rewrite isAbsolute_glue by done.
         by apply plainName_relative. }
  destruct Hin as (_ & Hparent & _). simpl in Hparent.
  change (base ++ [sub] ++ [name]) with (base ++ [sub; name]) in Hparent.
  replace (base ++ [sub; name]) with ((base ++ [sub]) ++ [name]) in Hparent
    by by rewrite <- app_assoc.
  rewrite removelast_last in Hparent.
  apply (f_equal length) in Hparent. rewrite length_app in Hparent.
  simpl in Hparent. lia.
Qed.

(** ["../name"] lies beside the upload directory, unless that is the
    root. *)
Lemma getFilePath_parent_outside (name : string) :
  plainName name = true → root = false ∨ base ≠ [] →
  World.inDirectory dir (FilesystemBackend.getFilePath this ("../" +:+ name))
    = false.
Proof.
  intros Hname Hroot.
  pose proof (plainName_inv _ Hname) as (Hsep & _).
  apply not_true_is_false. intros Hin.
  eapply inDirectory_iff in Hin.
  2: { rewrite keyOf_getFilePath by (try right; done).
       change ("../" +:+ name) with (".." +:+ "/" +:+ name).
       rewrite segments_glue, (segments_plain _ Hsep). simpl.
       rewrite (normalizeStep_plain _ _ _ Hname). simpl. reflexivity. }
  destruct Hin as (_ & Hparent & _). simpl in Hparent.
  rewrite removelast_last in Hparent.
  pose proof (kept_normalizeSegments (negb root) dir) as Hkept.
  fold base in Hkept.
  apply (f_equal (@rev string)) in Hparent.
  rewrite rev_involutive in Hparent.
  unfold normalizeStep in Hparent. simpl in Hparent.
  destruct (rev base) as [ | top below] eqn:Hbase.
  - apply (f_equal (@rev string)) in Hbase.
    rewrite rev_involutive in Hbase. simpl in Hbase.
    destruct Hroot as [-> | ?]; [done | done].
  - destruct Hkept as (_ & _ & _ & Hup & _).
    case_decide.
    + destruct (Hup ltac:(done)) as [Ha _]. rewrite Ha in Hparent.
      apply (f_equal length) in Hparent. simpl in Hparent. lia.
    + apply (f_equal length) in Hparent. simpl in Hparent. lia.
Qed.

End Locations.

(** ** Joining, piece by piece *)

Section Joins.
Import Path Contract.

(** [normalize] looks at three things only. *)
Lemma normalize_ext (p q : string) :
  p ≠ "" → q ≠ "" →
  isAbsolute p = isAbsolute q →
  normalizeSegments (negb (isAbsolute p)) (segments p)
    = normalizeSegments (negb (isAbsolute q)) (segments q) →
  trailingSeparator p = trailingSeparator q →
  normalize p = normalize q.
Proof.
  intros Hp Hq Habs Hsegs Htrail. unfold normalize, normalizeString.
  destruct (decide (p = "")); [done | ]. destruct (decide (q = "")); [done | ].
  by rewrite Hsegs, Habs, Htrail.
Qed.

Lemma append_assoc (a b c : string) : (a +:+ b) +:+ c = a +:+ b +:+ c.
Proof.
  induction a as [ | x a IH]; [reflexivity | ].
  change (String x ((a +:+ b) +:+ c) = String x (a +:+ b +:+ c)).
  by rewrite IH.
Qed.

Lemma append_nonempty (a b : string) : b ≠ "" → a +:+ b ≠ "".
Proof. intros Hb. by destruct a. Qed.

Lemma trailingSeparator_app (a b : string) :
  b ≠ "" → trailingSeparator (a +:+ b) = trailingSeparator b.
Proof.
  intros Hb. induction a as [ | c a IH]; [done | ].
  simpl. rewrite IH. destruct (a +:+ b) eqn:Hab; [ | done].
  destruct a; [done | discriminate Hab].
Qed.

Lemma normalizeSegments_skip (a : bool) (xs ys : list string) (seg : string) :
  seg = "" ∨ seg = "." →
  normalizeSegments a (xs ++ seg :: ys) = normalizeSegments a (xs ++ ys).
Proof.
  intros Hseg. unfold normalizeSegments. rewrite !fold_left_app. simpl.
  by destruct Hseg as [-> | ->].
Qed.

Lemma join_two (a b : string) :
  a ≠ "" → b ≠ "" → join [a; b] = normalize (a +:+ "/" +:+ b).
Proof.
  intros Ha Hb. unfold join.
  by rewrite !filter_cons_True, filter_nil by done.
Qed.

Lemma join_right (b : string) : b ≠ "" → join [""; b] = normalize b.
Proof.
  intros Hb. unfold join.
  rewrite filter_cons_False by (intros H; by apply H).
  by rewrite filter_cons_True, filter_nil by done.
Qed.

Lemma join_left (a : string) : a ≠ "" → join [a; ""] = normalize a.
Proof.
  intros Ha. unfold join.
  rewrite filter_cons_True by done.
  rewrite filter_cons_False by (intros H; by apply H).
  by rewrite filter_nil.
Qed.

Lemma trailingSeparator_normalize (p : string) :
  trailingSeparator p = true → trailingSeparator (normalize p) = true.
Proof.
  intros Htrail. unfold normalize.
  case_decide as Hp; [by subst | ].
  rewrite Htrail.
  case_decide; [by destruct (isAbsolute p) | ].
  destruct (isAbsolute p).
  - rewrite (trailingSeparator_app "/") by by apply append_nonempty.
    by apply trailingSeparator_app.
  - by apply trailingSeparator_app.
Qed.

Lemma separator_free_relative (name : string) :
  hasSeparator name = false → isAbsolute name = false.
Proof.
  destruct name as [ | c rest]; [done | ].
  simpl. by intros [? _]%orb_false_iff.
Qed.

Lemma normalizeStep_same (a : bool) (res : list string) (id1 id2 : string) :
  kept a res → id1 ≠ id2 →
  normalizeStep a res id1 = normalizeStep a res id2 →
  ((id1 = "" ∨ id1 = ".") ∧ (id2 = "" ∨ id2 = "."))
  ∨ (res = [] ∧ a = false).
Proof.
  intros Hkept Hne. unfold normalizeStep.
  destruct res as [ | top below].
  - repeat case_decide; subst; destruct a; intros Heq;
      first [ by left; split; auto | by right | congruence | discriminate Heq ].
  - destruct Hkept as (_ & _ & _ & Hup & _).
    repeat case_decide; subst; intros Heq;
      try (by left; split; auto); try congruence;
      try (destruct (Hup eq_refl) as [-> _]);
      try (apply (f_equal length) in Heq; simpl in Heq; lia);
      injection Heq; congruence.
Qed.

End Joins.

(** ** An identifier, normalized on its own *)

Section Renormalize.
Import Path Contract.

Lemma plainName_intro (name : string) :
  hasSeparator name = false → name ≠ "" → name ≠ "." → name ≠ ".." →
  plainName name = true.
Proof.
  intros Hsep H1 H2 H3. unfold plainName. rewrite Hsep. simpl.
  by rewrite !bool_decide_eq_false_2.
Qed.

Lemma normalizeStep_up (a : bool) (top : string) (below : list string) :
  top ≠ ".." → normalizeStep a (top :: below) ".." = below.
Proof. intros Htop. unfold normalizeStep. simpl. by case_decide. Qed.

Lemma normalizeStep_up_again (a : bool) (below : list string) :
  normalizeStep a (".." :: below) ".."
    = if a then ".." :: ".." :: below else ".." :: below.
Proof. reflexivity. Qed.

(** A segment acts on what was kept of a path as it acts on the path
    itself. *)
Lemma normalizeStep_replay (a : bool) (start res : list string)
    (seg : string) :
  kept true res → hasSeparator seg = false →
  normalizeStep a (fold_left (normalizeStep a) (rev res) start) seg
    = fold_left (normalizeStep a) (rev (normalizeStep true res seg)) start.
Proof.
  intros Hres Hseg.
  destruct (decide (seg = "")) as [-> | Hne]; [reflexivity | ].
  destruct (decide (seg = ".")) as [-> | Hdot]; [reflexivity | ].
  destruct (decide (seg = "..")) as [-> | Hup].
  - destruct res as [ | top below]; [reflexivity | ].
    destruct Hres as (Hsep & Hne' & Hdot' & _ & _).
    destruct (decide (top = "..")) as [-> | Htop].
    + rewrite normalizeStep_up_again. simpl. by rewrite !fold_left_app.
    + rewrite (normalizeStep_up true) by done.
      simpl. rewrite fold_left_app. simpl.
      rewrite (normalizeStep_plain a _ top) by by apply plainName_intro.
      by apply normalizeStep_up.
  - rewrite (normalizeStep_plain true _ seg) by by apply plainName_intro.
    simpl. by rewrite fold_left_app.
Qed.

Lemma fold_normalizeStep_replay (a : bool) (start segs : list string) :
  Forall (λ seg, hasSeparator seg = false) segs →
  fold_left (normalizeStep a) segs start
    = fold_left (normalizeStep a)
        (rev (fold_left (normalizeStep true) segs [])) start.
Proof.
  induction segs as [ | seg segs IH] using rev_ind; [done | ].
  intros [Hsegs Hseg]%Forall_app. inversion Hseg; subst.
  rewrite !fold_left_app. simpl. rewrite (IH Hsegs).
  apply normalizeStep_replay; [ | done].
  by apply fold_normalizeStep_kept.
Qed.

(** Names proper are kept, one after the other. *)
Lemma fold_normalizeStep_names (a : bool) (start names : list string) :
  Forall (λ name, plainName name = true) names →
  fold_left (normalizeStep a) names start = rev names ++ start.
Proof.
  revert start. induction names as [ | name names IH]; intros start Hall;
    [done | ].
  inversion Hall; subst. simpl.
  rewrite normalizeStep_plain by done. rewrite IH by done.
  by rewrite <- app_assoc.
Qed.

(** What is kept of a relative path: [".."] segments, then names. *)
Lemma kept_shape (res : list string) :
  kept true res →
  ∃ (n : nat) (names : list string),
    rev res = repeat ".." n ++ names
    ∧ Forall (λ name, plainName name = true) names.
Proof.
  induction res as [ | top below IH]; [by exists 0, [] | ].
  intros (Hsep & Hne & Hdot & Hup & Hbelow).
  destruct (IH Hbelow) as (n & names & Hrev & Hnames).
  destruct (decide (top = "..")) as [-> | Htop].
  - destruct (Hup eq_refl) as [_ Hall].
    exists (S (length below)), []. split; [ | done].
    rewrite app_nil_r. simpl.
    assert (rev below = repeat ".." (length below)) as ->.
    { rewrite <- length_rev. apply Forall_eq_repeat. apply Forall_rev.
      eapply Forall_impl; [exact Hall | ]. by intros ? ->. }
    by rewrite <- repeat_cons.
  - exists n, (names ++ [top]). split.
    + simpl. by rewrite Hrev, app_assoc.
    + apply Forall_app. split; [done | ].
      constructor; [by apply plainName_intro | done].
Qed.

(** Climbing: [".."] segments, one after the other. *)
Lemma climb_head (a : bool) (n : nat) (res : list string) :
  head res = Some ".." →
  head (fold_left (normalizeStep a) (repeat ".." n) res) = Some "..".
Proof.
  revert res. induction n as [ | n IH]; intros res Hhead; [done | ].
  simpl. apply IH. destruct res as [ | top below]; [done | ].
  injection Hhead as ->. rewrite normalizeStep_up_again. by destruct a.
Qed.

Lemma climb_length (a : bool) (n : nat) (res : list string) :
  (length (fold_left (normalizeStep a) (repeat ".." n) res) ≤ length res)%nat
  ∨ head (fold_left (normalizeStep a) (repeat ".." n) res) = Some "..".
Proof.
  revert res. induction n as [ | n IH]; intros res; [by left | ].
  simpl. destruct res as [ | top below].
  - destruct a; [right; by apply climb_head | ].
    change (normalizeStep false [] "..") with (@nil string). apply IH.
  - destruct (decide (top = "..")) as [-> | Htop].
    + right. apply climb_head. rewrite normalizeStep_up_again. by destruct a.
    + rewrite normalizeStep_up by done.
      destruct (IH below) as [Hle | Hhead]; [left; simpl; lia | by right].
Qed.

Lemma climb_grows (n : nat) (res : list string) :
  res = [] ∨ head res = Some ".." →
  length (fold_left (normalizeStep true) (repeat ".." n) res)
    = length res + n.
Proof.
  revert res. induction n as [ | n IH]; intros res Hres; [simpl; lia | ].
  simpl. destruct res as [ | top below].
  - change (normalizeStep true [] "..") with [".."].
    rewrite IH by by right. simpl. lia.
  - destruct Hres as [ | [= ->]]; [done | ].
    rewrite normalizeStep_up_again. rewrite IH by by right. simpl. lia.
Qed.

Lemma climb_moves (a : bool) (n : nat) (res : list string) :
  kept a res → (0 < n)%nat →
  fold_left (normalizeStep a) (repeat ".." n) res = res →
  res = [] ∧ a = false.
Proof.
  intros Hres Hn Heq. destruct n as [ | n]; [lia | ]. simpl in Heq.
  destruct res as [ | top below].
  - destruct a; [ | done].
    apply (f_equal length) in Heq.
    change (normalizeStep true [] "..") with [".."] in Heq.
    rewrite climb_grows in Heq by by right. simpl in Heq. lia.
  - exfalso. destruct Hres as (_ & _ & _ & Hup & _).
    destruct (decide (top = "..")) as [-> | Htop].
    + destruct (Hup eq_refl) as [-> _].
      rewrite normalizeStep_up_again in Heq.
      apply (f_equal length) in Heq.
      rewrite climb_grows in Heq by by right. simpl in Heq. lia.
    + rewrite normalizeStep_up in Heq by done.
      destruct (climb_length a n below) as [Hle | Hhead].
      * rewrite Heq in Hle. simpl in Hle. lia.
      * rewrite Heq in Hhead. simpl in Hhead. congruence.
Qed.

Lemma ownForm_shape (uuid : string) :
  ∃ (n : nat) (names : list string),
    ownForm uuid = repeat ".." n ++ names
    ∧ Forall (λ name, plainName name = true) names.
Proof.
  destruct (kept_shape _ (kept_normalizeSegments true uuid))
    as (n & names & Hrev & Hnames).
  rewrite rev_involutive in Hrev. by exists n, names.
Qed.

Lemma plainName_not_up (names : list string) :
  Forall (λ name, plainName name = true) names → ".." ∉ names.
Proof.
  intros Hall Hin. rewrite Forall_forall in Hall.
  by apply Hall in Hin.
Qed.

End Renormalize.

(** ** Where [getFilePath] points, for any identifier *)

Section Identifiers.
Import Path Contract World.

Variable this : FilesystemBackend.t.

Let dir : string := FilesystemBackend.uploadDirectory this.
Let root : bool := isAbsolute dir.
Let base : list string := normalizeSegments (negb root) (segments dir).

Lemma getFilePath_empty :
  FilesystemBackend.getFilePath this ""
    = if decide (dir = "") then "." else normalize dir.
Proof.
  unfold FilesystemBackend.getFilePath. fold dir.
  destruct (decide (dir = "")) as [-> | Hdir]; [reflexivity | ].
  by apply join_left.
Qed.

(** The entry [getFilePath] names, from the identifier normalized on
    its own. *)
Lemma keyOf_getFilePath_ownForm (uuid : string) :
  uuid ≠ "" → dir ≠ "" ∨ isAbsolute uuid = false →
  keyOf (FilesystemBackend.getFilePath this uuid)
    = Some (root, normalizeSegments (negb root) (segments dir ++ ownForm uuid)).
Proof.
  intros Hne Hrel. rewrite (keyOf_getFilePath this) by done.
  fold dir root base. rewrite normalizeSegments_app. fold base.
  by rewrite (fold_normalizeStep_replay _ _ (segments uuid))
    by apply segments_no_separator.
Qed.

Lemma normalizeSegments_names (names : list string) :
  Forall (λ name, plainName name = true) names →
  normalizeSegments (negb root) (segments dir ++ names) = base ++ names.
Proof.
  intros Hnames. rewrite normalizeSegments_app. fold base.
  rewrite fold_normalizeStep_names by done.
  by rewrite rev_app_distr, !rev_involutive.
Qed.

(** An identifier that keeps no [".."] goes down from the upload
    directory, by the names it keeps. *)
Lemma descending_identifier (uuid : string) :
  uuid ≠ "" → dir ≠ "" ∨ isAbsolute uuid = false →
  ".." ∉ ownForm uuid →
  keyOf (FilesystemBackend.getFilePath this uuid)
    = Some (root, base ++ ownForm uuid)
  ∧ (inDirectory dir (FilesystemBackend.getFilePath this uuid) = true
     ↔ ∃ name, ownForm uuid = [name]).
Proof.
  intros Hne Hrel Hup.
  destruct (ownForm_shape uuid) as (n & names & Hform & Hnames).
  destruct n as [ | n]; [ | exfalso; apply Hup; rewrite Hform; simpl; by left].
  simpl in Hform.
  assert (keyOf (FilesystemBackend.getFilePath this uuid)
          = Some (root, base ++ ownForm uuid)) as Hk.
  { rewrite keyOf_getFilePath_ownForm by done.
    rewrite Hform. by rewrite normalizeSegments_names. }
  split; [exact Hk | ].
  split.
  - intros Hin. apply (inDirectory_iff this _ _ Hk) in Hin.
    fold dir root base in Hin. simpl in Hin. rewrite Hform in Hin.
    destruct Hin as (_ & Hparent & Hsome & _).
    destruct names as [ | x [ | y rest]]; [ | by exists x | ].
    + rewrite app_nil_r in Hparent, Hsome.
      destruct base as [ | b bs] using rev_ind; [done | ].
      rewrite removelast_last in Hparent.
      apply (f_equal length) in Hparent. rewrite length_app in Hparent.
      simpl in Hparent. lia.
    + rewrite removelast_app in Hparent by done.
      apply (f_equal length) in Hparent. rewrite length_app in Hparent.
      simpl in Hparent. lia.
  - intros [name Hname]. apply (inDirectory_iff this _ _ Hk).
    fold dir root base. simpl. rewrite Hname, removelast_last, last_snoc.
    split; [done | ]. split; [done | ].
    split; [by destruct base | ].
    intros [= ->]. apply Hup. rewrite Hname. by left.
Qed.

(** An identifier that keeps a [".."] leaves the upload directory
    upwards; it comes back into it only through the directory's own
    name. *)
Lemma climbing_identifier (uuid : string) :
  uuid ≠ "" → dir ≠ "" ∨ isAbsolute uuid = false →
  ".." ∈ ownForm uuid → isRoot dir = false →
  (∀ d, last base = Some d → d ≠ ".." → d ∉ ownForm uuid) →
  inDirectory dir (FilesystemBackend.getFilePath this uuid) = false.
Proof.
  intros Hne Hrel Hup Hroot Hback.
  apply not_true_is_false. intros Hin.
  pose proof (keyOf_getFilePath_ownForm uuid Hne Hrel) as Hk.
  apply (inDirectory_iff this _ _ Hk) in Hin. fold dir root base in Hin.
  simpl in Hin. destruct Hin as (_ & Hparent & Hsome & Hlast).
  destruct (ownForm_shape uuid) as (n & names & Hform & Hnames).
  assert (0 < n)%nat as Hn.
  { destruct n; [ | lia]. simpl in Hform. rewrite Hform in Hup.
    by apply plainName_not_up in Hup. }
  rewrite Hform in Hparent, Hsome, Hlast, Hback.
  rewrite normalizeSegments_app in Hparent, Hsome, Hlast.
  fold base in Hparent, Hsome, Hlast.
  rewrite fold_left_app in Hparent, Hsome, Hlast.
  rewrite fold_normalizeStep_names in Hparent, Hsome, Hlast by done.
  pose proof (climb_length (negb root) n (rev base)) as Hclimb.
  set (above := fold_left (normalizeStep (negb root)) (repeat ".." n) (rev base))
    in *.
  rewrite rev_app_distr, rev_involutive in Hparent, Hsome, Hlast.
  pose proof (kept_normalizeSegments (negb root) dir) as Hkept.
  fold base in Hkept.
  destruct names as [ | name names _] using rev_ind.
  - (* the path ends above: it would have to end on a name *)
    rewrite app_nil_r in Hparent, Hsome, Hlast.
    destruct Hclimb as [Hle | Hhead].
    + pose proof (app_removelast_last "" Hsome) as Hsplit.
      apply (f_equal length) in Hsplit.
      rewrite length_app, Hparent, length_rev in Hsplit.
      rewrite length_rev in Hle. simpl in Hsplit. lia.
    + destruct above as [ | top below]; [done | ].
      injection Hhead as ->. simpl in Hlast. by rewrite last_snoc in Hlast.
  - rewrite app_assoc, removelast_last in Hparent.
    destruct names as [ | name' names _] using rev_ind.
    + rewrite app_nil_r in Hparent.
      apply (f_equal (@rev string)) in Hparent.
      rewrite rev_involutive in Hparent.
      destruct (climb_moves _ _ _ Hkept Hn Hparent) as [Hempty Ha].
      unfold isRoot in Hroot. fold dir root in Hroot.
      apply negb_false_iff in Ha. rewrite Ha in Hroot. simpl in Hroot.
      apply bool_decide_eq_false in Hroot. apply Hroot.
      apply (f_equal (@rev string)) in Hempty.
      rewrite rev_involutive in Hempty. subst base.
      by rewrite Ha in Hempty.
    + rewrite app_assoc in Hparent.
      apply Forall_app in Hnames as [Hnames _].
      apply Forall_app in Hnames as [_ Hname'].
      inversion Hname' as [ | ? ? Hplain _]; subst.
      apply plainName_inv in Hplain as (_ & _ & _ & Hup').
      apply (Hback name'); [by rewrite <- Hparent, last_snoc | done | ].
      rewrite !elem_of_app. right. left. right. by left.
Qed.

(** The absolute identifier of a backend without upload path. *)
Lemma absolute_identifier (uuid : string) :
  dir = "" → isAbsolute uuid = true →
  inDirectory dir (FilesystemBackend.getFilePath this uuid) = false.
Proof.
  intros Hdir Habs. unfold FilesystemBackend.getFilePath. fold dir.
  rewrite Hdir. assert (uuid ≠ "") as Hne by (by destruct uuid).
  rewrite join_right by done. unfold inDirectory.
  rewrite keyOf_normalize, keyOf_nonempty by done. simpl.
  apply bool_decide_eq_false. rewrite Habs. by intros [? _].
Qed.

(** The entry an identifier without separator names: one round of the
    loop of [normalizeString], from the upload directory. *)
Lemma keyOf_getFilePath_name (name : string) :
  hasSeparator name = false →
  keyOf (FilesystemBackend.getFilePath this name)
    = Some (root, rev (normalizeStep (negb root) (rev base) name)).
Proof.
  intros Hsep. destruct (decide (name = "")) as [-> | Hname].
  - rewrite getFilePath_empty. fold dir.
    change (normalizeStep (negb root) (rev base) "") with (rev base).
    rewrite rev_involutive.
    destruct (decide (dir = "")) as [Hdir | Hdir].
    + subst base root. by rewrite Hdir.
    + rewrite keyOf_normalize by done. by apply keyOf_nonempty.
  - rewrite (keyOf_getFilePath this)
      by (try right; auto using separator_free_relative).
    by rewrite (segments_plain _ Hsep).
Qed.

Lemma getFilePath_empty_trailing :
  trailingSeparator dir = true →
  trailingSeparator (FilesystemBackend.getFilePath this "") = true.
Proof.
  intros Htrail. rewrite getFilePath_empty. fold dir.
  destruct (decide (dir = "")) as [Hdir | Hdir].
  - by rewrite Hdir in Htrail.
  - by apply trailingSeparator_normalize.
Qed.

(** Two identifiers without separator name the same entry only when
    both are [""] or ["."], and the entry is then the upload directory
    itself. *)
Lemma shared_entry (id1 id2 : string) (k : bool * list string) :
  hasSeparator id1 = false → hasSeparator id2 = false → id1 ≠ id2 →
  keyOf (FilesystemBackend.getFilePath this id1) = Some k →
  keyOf (FilesystemBackend.getFilePath this id2) = Some k →
  isBase k = false →
  keyOf dir = Some k
  ∧ (id1 = "" ∨ id1 = ".") ∧ (id2 = "" ∨ id2 = ".").
Proof.
  intros H1 H2 Hne.
  rewrite (keyOf_getFilePath_name id1 H1), (keyOf_getFilePath_name id2 H2).
  intros [= <-] [= Heq] Hbase.
  apply (f_equal (@rev string)) in Heq. rewrite !rev_involutive in Heq.
  pose proof (kept_normalizeSegments (negb root) dir) as Hkept.
  fold base in Hkept.
  destruct (normalizeStep_same _ _ _ _ Hkept Hne (eq_sym Heq))
    as [[Hid1 Hid2] | [Hempty Hroot]].
  - split; [ | done].
    assert (normalizeStep (negb root) (rev base) id1 = rev base) as Hstep
      by by destruct Hid1 as [-> | ->].
    rewrite Hstep, rev_involutive in Hbase |- *.
    destruct (decide (dir = "")) as [Hdir | Hdir].
    + subst base root. by rewrite Hdir in Hbase.
    + by apply keyOf_nonempty.
  - exfalso. rewrite Hempty in Hbase.
    destruct id1 as [ | c1 rest1]; [ | unfold normalizeStep in Hbase;
      repeat case_decide; subst; try rewrite Hroot in Hbase;
      try discriminate Hbase].
    + by destruct root.
    + rewrite Hempty in Heq. unfold normalizeStep in Heq.
      rewrite Hroot in Heq.
      repeat case_decide; subst; try discriminate Heq; try congruence.
Qed.

End Identifiers.

(** ** The backends in the world *)

Section WorldFacts.
Import Js Io Contract World.

Implicit Types (w : World.t) (k : bool * list string)
  (fs : gmap (bool * list string) Node).

Lemma nodeAt_insert fs k (node : Node) :
  isBase k = false → nodeAt (<[k := node]> fs) k = Some node.
Proof. intros Hk. unfold nodeAt. rewrite Hk. apply lookup_insert_eq. Qed.

Lemma nodeAt_insert_ne fs k k' (node : Node) :
  k ≠ k' → nodeAt (<[k := node]> fs) k' = nodeAt fs k'.
Proof.
  intros Hk. unfold nodeAt. destruct (isBase k'); [done | ].
  by apply lookup_insert_ne.
Qed.

Lemma nodeAt_delete fs k : isBase k = false → nodeAt (delete k fs) k = None.
Proof. intros Hk. unfold nodeAt. rewrite Hk. apply lookup_delete_eq. Qed.

Lemma nodeAt_base fs k : nodeAt fs k ≠ Some Dir → isBase k = false.
Proof. unfold nodeAt. by destruct (isBase k). Qed.

Lemma nodeAt_insert_is_Some fs k k' (node : Node) :
  is_Some (nodeAt fs k') → is_Some (nodeAt (<[k := node]> fs) k').
Proof.
  unfold nodeAt. destruct (isBase k'); [done | ].
  rewrite lookup_insert. case_decide; eauto.
Qed.

(** The four calls, case by case. *)
Lemma fsAccess_cases path w :
  (fsAccess path w = (Fulfilled (), w) ∧ exists_ w path = true)
  ∨ (∃ e, fsAccess path w = (Rejected e, w)) ∧ exists_ w path = false.
Proof.
  unfold fsAccess, exists_.
  destruct (keyOf path) as [k | ]; [ | eauto].
  destruct (nodeAt (files w) k) as [node | ] eqn:Hnode.
  - left. split; [done | ]. apply bool_decide_eq_true. eauto.
  - right. split; [eauto | ]. apply bool_decide_eq_false. by intros [? ?].
Qed.

Lemma fsMkdir_cases path w :
  (∃ k, keyOf path = Some k
        ∧ nodeAt (files w) k = None
        ∧ nodeAt (files w) (parentOf k) = Some Dir
        ∧ fsMkdir path w
          = (Fulfilled (), withFiles w (<[k := Dir]> (files w))))
  ∨ (∃ e, fsMkdir path w = (Rejected e, w)).
Proof.
  unfold fsMkdir.
  destruct (keyOf path) as [k | ]; [ | eauto].
  destruct (nodeAt (files w) k) as [node | ] eqn:Hnode; [eauto | ].
  destruct (nodeAt (files w) (parentOf k)) as [[ | content] | ] eqn:Hparent;
    eauto 10.
Qed.

Lemma fsWriteFile_cases path data w :
  (writable w path = true
   ∧ ∃ k, Path.trailingSeparator path = false
        ∧ keyOf path = Some k
        ∧ nodeAt (files w) k ≠ Some Dir
        ∧ nodeAt (files w) (parentOf k) = Some Dir
        ∧ fsWriteFile None path data w
          = (Fulfilled (), withFiles w (<[k := File data]> (files w))))
  ∨ (writable w path = false
     ∧ ∃ e, fsWriteFile None path data w = (Rejected e, w)).
Proof.
  unfold fsWriteFile, writable.
  destruct (Path.trailingSeparator path);
    [right; split; [reflexivity | eexists; reflexivity] | ].
  destruct (keyOf path) as [k | ];
    [ | right; split; [reflexivity | eexists; reflexivity]].
  destruct (nodeAt (files w) (parentOf k)) as [[ | content] | ] eqn:Hparent;
    destruct (nodeAt (files w) k) as [[ | content'] | ] eqn:Hnode;
    first [ right; split; [reflexivity | eexists; reflexivity]
          | left; split; [reflexivity | ]; exists k;
            repeat split; congruence ].
Qed.

Lemma fsUnlink_cases path w :
  (∃ k content, Path.trailingSeparator path = false
        ∧ keyOf path = Some k
        ∧ nodeAt (files w) k = Some (File content)
        ∧ fsUnlink path w = (Fulfilled (), withFiles w (delete k (files w))))
  ∨ ((∃ e, fsUnlink path w = (Rejected e, w)) ∧ readFile w path = None).
Proof.
  unfold fsUnlink, readFile.
  destruct (Path.trailingSeparator path); [eauto | ].
  destruct (keyOf path) as [k | ]; [ | eauto].
  destruct (nodeAt (files w) k) as [[ | content] | ] eqn:Hnode; eauto 10.
Qed.

End WorldFacts.

(** Running one more request of the world, its definition kept folded. *)
Ltac world_simpl :=
  cbn -[World.fsAccess World.fsMkdir World.fsWriteFile World.fsUnlink
        World.hasBucket World.s3PutObject World.s3RemoveObject World.s3PresignedGetObject
        FilesystemBackend.getFilePath String.append].

Section FilesystemWorld.
Import Js Io Contract World.

Variable this : FilesystemBackend.t.

Let dir : string := FilesystemBackend.uploadDirectory this.

(** What [saveFile] does to the world, in full: the directory step
    leaves the world as it is or adds the directory, and the write
    then replaces one entry or is refused. *)
Lemma saveFile_effect (uuid : string) (buffer : Buffer) (w : World.t) :
  let path := FilesystemBackend.getFilePath this uuid in
  let r := run handle (FilesystemBackend.saveFile this uuid buffer) w in
  (exists_ w dir = false
   ∧ r.1.1 = Throw (MediaBackendError ("Could not create '" +:+ dir +:+ "'"))
   ∧ r.1.2 = w
   ∧ requests r.2 = [access dir; mkdir dir])
  ∨ ∃ w1 before,
      ((exists_ w dir = true ∧ w1 = w ∧ before = [access dir])
       ∨ (exists_ w dir = false
          ∧ before = [access dir; mkdir dir]
          ∧ ∃ kd, keyOf dir = Some kd
                  ∧ nodeAt (files w) kd = None
                  ∧ w1 = withFiles w (<[kd := Dir]> (files w))))
      ∧ requests r.2 = before ++ [writeFile path buffer]
      ∧ ((writable w1 path = false
          ∧ r.1.1 = Throw (MediaBackendError
                             ("Could not save file '" +:+ path +:+ "'"))
          ∧ r.1.2 = w1)
         ∨ (r.1.1 = Normal null
            ∧ ∃ k, Path.trailingSeparator path = false
                   ∧ keyOf path = Some k
                   ∧ nodeAt (files w1) k ≠ Some Dir
                   ∧ nodeAt (files w1) (parentOf k) = Some Dir
                   ∧ r.1.2 = withFiles w1 (<[k := File buffer]> (files w1)))).
Proof.
  intros path r. subst r.
  unfold FilesystemBackend.saveFile, FilesystemBackend.ensureDirectory.
  fold dir path.
  world_simpl.
  destruct (fsAccess_cases dir w) as [[Ha Hex] | [[e Ha] Hex]];
    rewrite Ha; world_simpl.
  - right. exists w, [access dir]. split; [by left | ].
    destruct (fsWriteFile_cases path buffer w)
      as [(_ & k & ? & ? & ? & ? & Hw) | (? & e & Hw)]; rewrite Hw; world_simpl.
    + split; [done | ]. right. split; [done | ]. by exists k.
    + split; [done | ]. by left.
  - destruct (fsMkdir_cases dir w) as [(kd & ? & ? & ? & Hm) | [e' Hm]];
      rewrite Hm; world_simpl.
    + right. eexists _, [access dir; mkdir dir].
      split; [right; repeat split; try done; by exists kd | ].
      match goal with
      | |- context [fsWriteFile None path buffer ?w1] =>
          destruct (fsWriteFile_cases path buffer w1)
            as [(_ & k & ? & ? & ? & ? & Hw) | (? & e' & Hw)];
          rewrite Hw; world_simpl
      end.
      * split; [done | ]. right. split; [done | ]. by exists k.
      * split; [done | ]. by left.
    + by left.
Qed.

Lemma deleteFile_effect (uuid : string) (w : World.t) :
  let path := FilesystemBackend.getFilePath this uuid in
  let r := run handle (FilesystemBackend.deleteFile this uuid) w in
  requests r.2 = [unlink path]
  ∧ ((r.1.1 = Throw (MediaBackendError
                       ("Could not delete file '" +:+ path +:+ "'"))
      ∧ r.1.2 = w
      ∧ readFile w path = None)
     ∨ (r.1.1 = Normal ()
        ∧ ∃ k content, Path.trailingSeparator path = false
               ∧ keyOf path = Some k
               ∧ nodeAt (files w) k = Some (File content)
               ∧ r.1.2 = withFiles w (delete k (files w)))).
Proof.
  intros path r. subst r. unfold FilesystemBackend.deleteFile.
  fold path. world_simpl.
  destruct (fsUnlink_cases path w)
    as [(k & content & ? & ? & ? & Hu) | [[e Hu] ?]]; rewrite Hu; world_simpl.
  - split; [done | ]. right. split; [done | ]. by exists k, content.
  - split; [done | ]. by left.
Qed.

(** What a write leaves behind: the file reads back, and what existed
    before still exists. *)
Lemma readFile_written (w : World.t) (k : bool * list string)
    (path : string) (buffer : Buffer) :
  Path.trailingSeparator path = false → keyOf path = Some k →
  nodeAt (files w) k ≠ Some Dir →
  readFile (withFiles w (<[k := File buffer]> (files w))) path = Some buffer.
Proof.
  intros Htrail Hk Hnode. unfold readFile. rewrite Htrail, Hk. simpl.
  rewrite nodeAt_insert; [done | by eapply nodeAt_base].
Qed.

Lemma exists_written (w : World.t) (k : bool * list string) (node : Node)
    (path : string) :
  exists_ w path = true →
  exists_ (withFiles w (<[k := node]> (files w))) path = true.
Proof.
  unfold exists_. destruct (keyOf path) as [k' | ]; [ | done]. simpl.
  intros Hex%bool_decide_eq_true. apply bool_decide_eq_true.
  by apply nodeAt_insert_is_Some.
Qed.

Lemma exists_mkdir (w : World.t) (kd : bool * list string) (path : string) :
  keyOf path = Some kd → nodeAt (files w) kd = None →
  exists_ (withFiles w (<[kd := Dir]> (files w))) path = true
  ∧ isDirectory (withFiles w (<[kd := Dir]> (files w))) path = true.
Proof.
  intros Hkd Hnone. unfold exists_, isDirectory. rewrite Hkd. simpl.
  rewrite nodeAt_insert by (apply (nodeAt_base (files w)); congruence).
  split; [ | done]. apply bool_decide_eq_true. eauto.
Qed.

(** A [saveFile] that returns leaves the directory in existence and the
    file with the content given. *)
Lemma saveFile_success (uuid : string) (buffer : Buffer) (w : World.t) :
  let path := FilesystemBackend.getFilePath this uuid in
  let r := run handle (FilesystemBackend.saveFile this uuid buffer) w in
  r.1.1 = Normal null →
  exists_ r.1.2 dir = true ∧ readFile r.1.2 path = Some buffer.
Proof.
  intros path r Hok. subst r.
  pose proof (saveFile_effect uuid buffer w) as Heff.
  cbv zeta in Heff. fold path in Heff.
  destruct Heff
    as [(_ & Hthrow & _) | (w1 & before & Hdir & _ & Hwrite)];
    [congruence | ].
  destruct Hwrite
    as [(_ & Hthrow & _) | (_ & k & Htrail & Hk & Hnode & _ & ->)];
    [congruence | ].
  split; [ | by apply readFile_written].
  apply exists_written.
  destruct Hdir as [(Hex & -> & _) | (_ & _ & kd & Hkd & Hnone & ->)];
    [done | by apply exists_mkdir].
Qed.


Lemma readFile_insert_ne (w : World.t) (k : bool * list string)
    (node : Node) (path : string) :
  keyOf path ≠ Some k →
  readFile (withFiles w (<[k := node]> (files w))) path = readFile w path.
Proof.
  intros Hne. unfold readFile.
  destruct (Path.trailingSeparator path); [done | ].
  destruct (keyOf path) as [k' | ]; [ | done]. simpl.
  rewrite nodeAt_insert_ne; [done | congruence].
Qed.

Lemma readFile_delete_ne (w : World.t) (k : bool * list string)
    (path : string) :
  keyOf path ≠ Some k →
  readFile (withFiles w (delete k (files w))) path = readFile w path.
Proof.
  intros Hne. unfold readFile.
  destruct (Path.trailingSeparator path); [done | ].
  destruct (keyOf path) as [k' | ]; [ | done]. simpl.
  unfold nodeAt. destruct (isBase k'); [done | ].
  rewrite lookup_delete_ne; [done | congruence].
Qed.

(** A directory made where nothing was is no file to read. *)
Lemma readFile_mkdir (w : World.t) (kd : bool * list string)
    (path : string) :
  nodeAt (files w) kd = None →
  readFile (withFiles w (<[kd := Dir]> (files w))) path = readFile w path.
Proof.
  intros Hnone. destruct (decide (keyOf path = Some kd)) as [Hk | Hk];
    [ | by apply readFile_insert_ne].
  unfold readFile. destruct (Path.trailingSeparator path); [done | ].
  rewrite Hk. simpl. rewrite Hnone.
  rewrite nodeAt_insert; [done | ].
  apply (nodeAt_base (files w)). congruence.
Qed.

(** Saving twice on the file system: once [saveFile(id, c1)] has
    succeeded, [saveFile(id, c2)] succeeds too and the path reads [c2]. *)
Lemma saveFile_twice (uuid : string) (c1 c2 : Buffer) (w : World.t) :
  let path := FilesystemBackend.getFilePath this uuid in
  let first := run handle (FilesystemBackend.saveFile this uuid c1) w in
  let second :=
    run handle (FilesystemBackend.saveFile this uuid c2) first.1.2 in
  first.1.1 = Normal null →
  second.1.1 = Normal null ∧ readFile second.1.2 path = Some c2.
Proof.
  intros path first second Hfirst.
  pose proof (saveFile_success uuid c1 w Hfirst) as (Hex & _).
  fold first in Hex.
  pose proof (saveFile_effect uuid c1 w) as Heff.
  cbv zeta in Heff. fold path first in Heff.
  destruct Heff as [(_ & Hthrow & _) | (w1 & before & _ & _ & Hwrite)];
    [congruence | ].
  destruct Hwrite
    as [(_ & Hthrow & _) | (_ & k & Htrail & Hk & Hnode & Hparent & Hw')];
    [congruence | ].
  assert (writable first.1.2 path = true) as Hwritable.
  { rewrite Hw'. unfold writable. rewrite Htrail, Hk. simpl.
    rewrite nodeAt_insert by (by eapply nodeAt_base).
    rewrite nodeAt_insert_ne; [by rewrite Hparent | ].
    intros Heq. rewrite <- Heq in Hparent. done. }
  assert (second.1.1 = Normal null) as Hsecond.
  { pose proof (saveFile_effect uuid c2 first.1.2) as Heff.
    cbv zeta in Heff. fold path second in Heff.
    destruct Heff as [(Hno & _) | (w2 & before' & Hdir & _ & Hwrite)];
      [congruence | ].
    destruct Hdir as [(_ & -> & _) | (Hno & _)]; [ | congruence].
    destruct Hwrite as [(Hno & _) | (? & _)]; [congruence | done]. }
  split; [done | ].
  by pose proof (saveFile_success uuid c2 first.1.2 Hsecond) as (_ & ?).
Qed.

End FilesystemWorld.

(** ** On a device that may fail *)

Section Faulty.
Import Js Io Contract Trace World.

Lemma fsWriteFile_failing_cases (fault : Fault) path data w :
  (∃ k, Path.trailingSeparator path = false
        ∧ keyOf path = Some k
        ∧ nodeAt (files w) k ≠ Some Dir
        ∧ nodeAt (files w) (parentOf k) = Some Dir
        ∧ fsWriteFile (Some fault) path data w
          = (Rejected (reason fault),
             withFiles w (<[k := File (take (written fault) data)]> (files w))))
  ∨ (∃ e, fsWriteFile (Some fault) path data w = (Rejected e, w)).
Proof.
  unfold fsWriteFile.
  destruct (Path.trailingSeparator path); [right; eexists; reflexivity | ].
  destruct (keyOf path) as [k | ]; [ | right; eexists; reflexivity].
  destruct (nodeAt (files w) (parentOf k)) as [[ | content] | ] eqn:Hparent;
    destruct (nodeAt (files w) k) as [[ | content'] | ] eqn:Hnode;
    first [ right; eexists; reflexivity
          | left; exists k; repeat split; congruence ].
Qed.

Variable this : FilesystemBackend.t.

Let dir : string := FilesystemBackend.uploadDirectory this.

(** One request of the world, by cases on how it is answered, the
    device working or failing. *)
Ltac faulty_case :=
  match goal with
  | |- context [World.fsAccess ?p ?w] =>
      let Ha := fresh "Haccess" in
      destruct (fsAccess_cases p w) as [[Ha _] | [[? Ha] _]];
      rewrite Ha; clear Ha
  | |- context [World.fsMkdir ?p ?w] =>
      let Hm := fresh "Hmkdir" in
      destruct (fsMkdir_cases p w) as [(? & ? & ? & _ & Hm) | [? Hm]];
      rewrite Hm; clear Hm
  | |- context [World.fsWriteFile None ?p ?d ?w] =>
      let Hw := fresh "Hwrite" in
      destruct (fsWriteFile_cases p d w)
        as [(_ & ? & ? & ? & ? & _ & Hw) | (_ & ? & Hw)];
      rewrite Hw; clear Hw
  | |- context [World.fsWriteFile (Some ?f) ?p ?d ?w] =>
      let Hw := fresh "Hwrite" in
      destruct (fsWriteFile_failing_cases f p d w)
        as [(? & ? & ? & ? & _ & Hw) | (? & Hw)];
      rewrite Hw; clear Hw
  end;
  world_simpl.

(** What [saveFile] does to the world on such a device: the directory
    step leaves the world as it is or adds the directory; the write then
    changes nothing, or leaves a file at the joined path, with the content
    when [saveFile] returns and with a part of it when it throws. *)
Lemma saveFile_faulty_effect (faults : list (option Fault))
    (uuid : string) (buffer : Buffer) (w : World.t) :
  let path := FilesystemBackend.getFilePath this uuid in
  let r := run handleFaulty (FilesystemBackend.saveFile this uuid buffer)
             (faults, w) in
  ∃ w1,
    (w1 = w
     ∨ ∃ kd, keyOf dir = Some kd ∧ nodeAt (files w) kd = None
             ∧ w1 = withFiles w (<[kd := Dir]> (files w)))
    ∧ ((isThrow r.1.1 = true ∧ r.1.2.2 = w1)
       ∨ ∃ k content,
           Path.trailingSeparator path = false
           ∧ keyOf path = Some k
           ∧ nodeAt (files w1) k ≠ Some Dir
           ∧ r.1.2.2 = withFiles w1 (<[k := File content]> (files w1))
           ∧ ((r.1.1 = Normal null ∧ content = buffer)
              ∨ (isThrow r.1.1 = true ∧ ∃ n, content = take n buffer))).
Proof.
  cbv zeta.
  unfold FilesystemBackend.saveFile, FilesystemBackend.ensureDirectory.
  fold dir.
  destruct faults as [ | [f1 | ] [ | [f2 | ] [ | [f3 | ] rest]]]; world_simpl;
    repeat faulty_case.
  all: try (eexists; split; [by left | ]; left; by split).
  all: try (eexists; split; [by left | ]; right; eexists _, _;
            repeat split; try done; by left).
  all: try (eexists; split; [by left | ]; right; eexists _, _;
            repeat split; try done; right; split; [done | ]; by eexists).
  all: try (eexists; split; [right; eexists; by repeat split | ];
            left; by split).
  all: try (eexists; split; [right; eexists; by repeat split | ];
            right; eexists _, _; repeat split; try done; by left).
  all: try (eexists; split; [right; eexists; by repeat split | ];
            right; eexists _, _; repeat split; try done;
            right; split; [done | ]; by eexists).
Qed.


Lemma deleteFile_faulty_effect (faults : list (option Fault))
    (uuid : string) (w : World.t) :
  let path := FilesystemBackend.getFilePath this uuid in
  let r := run handleFaulty (FilesystemBackend.deleteFile this uuid)
             (faults, w) in
  requests r.2 = [unlink path]
  ∧ ((r.1.1 = Throw (MediaBackendError
                       ("Could not delete file '" +:+ path +:+ "'"))
      ∧ r.1.2.2 = w
      ∧ (readFile w path = None ∨ ∃ fault, head faults = Some (Some fault)))
     ∨ (r.1.1 = Normal ()
        ∧ ∃ k content, Path.trailingSeparator path = false
               ∧ keyOf path = Some k
               ∧ nodeAt (files w) k = Some (File content)
               ∧ r.1.2.2 = withFiles w (delete k (files w)))).
Proof.
  cbv zeta. unfold FilesystemBackend.deleteFile.
  destruct faults as [ | [fault | ] rest]; world_simpl;
    try (split; [done | ]; left; repeat split; right; by eexists);
    (destruct (fsUnlink_cases (FilesystemBackend.getFilePath this uuid) w)
      as [(k & content & ? & ? & ? & Hu) | [[e Hu] ?]]; rewrite Hu; world_simpl;
     (split; [done | ]);
     [right; split; [done | ]; by exists k, content
     | left; repeat split; by left]).
Qed.

(** C3: [deleteFile(id)] asks for one [fs.unlink], of the path that
    [path.join] makes of the upload directory and the identifier: for an
    identifier that is a plain name, the entry of that name directly
    inside the upload directory.  Whatever the file system answers, it
    returns exactly when the [fs.unlink] was fulfilled, and otherwise
    throws the [MediaBackendError] of the path.  In the world, also on a
    device that may fail, it returns only when the path named a file,
    which is gone afterwards, so that deleting again at once fails; and
    when it throws, the world is as it was, and either the path named no
    file (nothing there, or an entry that cannot be unlinked) or the
    device has refused. *)
Theorem deleteFile_removes {S : Type} (h : Handler S) (s : S)
    (faults : list (option Fault)) (uuid : string) (w : World.t) :
  let path := Path.join [FilesystemBackend.uploadDirectory this; uuid] in
  let failure :=
    MediaBackendError ("Could not delete file '" +:+ path +:+ "'") in
  let any := run h (FilesystemBackend.deleteFile this uuid) s in
  let r := run handleFaulty (FilesystemBackend.deleteFile this uuid)
             (faults, w) in
  (any.1.1, settlements any.2)
    ∈ [(Normal (), [(unlink path, true)]);
       (Throw failure, [(unlink path, false)])]
  ∧ requests r.2 = [unlink path]
  ∧ match r.1.1 with
    | Normal _ =>
        is_Some (readFile w path)
        ∧ exists_ r.1.2.2 path = false
        ∧ readFile r.1.2.2 path = None
        ∧ ∀ faults',
            (run handleFaulty (FilesystemBackend.deleteFile this uuid)
               (faults', r.1.2.2)).1.1 = Throw failure
    | Throw e =>
        e = failure
        ∧ r.1.2.2 = w
        ∧ (readFile w path = None ∨ ∃ fault, head faults = Some (Some fault))
    end
  ∧ (plainName uuid = true →
     keyOf path
       = Some (Path.isAbsolute dir,
               Path.normalizeSegments (negb (Path.isAbsolute dir))
                 (Path.segments dir) ++ [uuid])
     ∧ inDirectory dir path = true).
Proof.
  intros path failure any r. subst any r failure.
  change (Path.join [FilesystemBackend.uploadDirectory this; uuid])
    with (FilesystemBackend.getFilePath this uuid) in path.
  split; [ | split; [ | split]].
  - apply (always_run (λ c calls, (c, settlements calls) ∈ _)).
    unfold FilesystemBackend.deleteFile. fold path.
    answers; unfold settlements; simpl; set_solver.
  - by destruct (deleteFile_faulty_effect faults uuid w) as [? _].
  - pose proof (deleteFile_faulty_effect faults uuid w) as Heff.
    cbv zeta in Heff. fold path in Heff.
    destruct Heff as [_ [(-> & -> & Hwhy)
                         | (-> & k & content & Htrail & Hk & Hnode & ->)]];
      [done | ].
    assert (isBase k = false) as Hbase
        by (apply (nodeAt_base (files w)); congruence).
    split; [unfold readFile; rewrite Htrail, Hk, Hnode; eauto | ].
    split; [ | split].
    + unfold exists_. rewrite Hk. simpl. apply bool_decide_eq_false.
      rewrite nodeAt_delete by done. by intros [? ?].
    + unfold readFile. rewrite Htrail, Hk. simpl. by rewrite nodeAt_delete.
    + intros faults'.
      pose proof (deleteFile_faulty_effect faults' uuid
                    (withFiles w (delete k (files w)))) as Hagain.
      cbv zeta in Hagain. fold path in Hagain.
      destruct Hagain
        as [_ [(-> & _) | (_ & k' & content' & _ & Hk' & Hnode' & _)]];
        [done | ].
      simpl in Hnode'. rewrite Hk in Hk'. injection Hk' as <-.
      by rewrite nodeAt_delete in Hnode'.
  - intros Hplain.
    pose proof (keyOf_getFilePath_plain this uuid Hplain) as Hk.
    fold path dir in Hk. split; [exact Hk | ].
    eapply (inDirectory_iff this); [exact Hk | ]. simpl.
    rewrite removelast_last, last_snoc.
    apply plainName_inv in Hplain as (_ & _ & _ & Hup).
    repeat split; [by destruct (Path.normalizeSegments _ _) | congruence].
Qed.

End Faulty.


Section Overwrite.
Import Js Io Contract World.

Lemma S3_saveFile_effect (this : S3Backend.t) (uuid : string)
    (buffer : Buffer) (w : World.t) :
  let r := run handle (S3Backend.saveFile this uuid buffer) w in
  (r.1.1 = Throw (MediaBackendError
                    ("Could not save file " +:+ uuid +:+ " on S3"))
   ∧ r.1.2 = w
   ∧ ∀ config, S3Backend.config this = Some config →
               is_Some (S3Backend.client this) →
               hasBucket w (Config.bucket config) = false)
  ∨ (r.1.1 = Normal null
     ∧ ∃ config, S3Backend.config this = Some config
         ∧ hasBucket w (Config.bucket config) = true
         ∧ buckets r.1.2 = buckets w
         ∧ files r.1.2 = files w
         ∧ objects r.1.2
           = <[(Config.bucket config, uuid) := buffer]> (objects w)
         ∧ requests r.2 = [putObject (Config.bucket config) uuid buffer]).
Proof.
  intros r. subst r. unfold S3Backend.saveFile.
  destruct (S3Backend.client this) as [client | ].
  2: { left. split; [reflexivity | ]. split; [reflexivity | ].
       intros ? _ [? ?]. discriminate. }
  destruct (S3Backend.config this) as [config | ].
  2: { left. split; [reflexivity | ]. split; [reflexivity | ].
       intros ? ?. discriminate. }
  world_simpl. unfold s3PutObject.
  destruct (hasBucket w (Config.bucket config)) eqn:Hin.
  - right. split; [reflexivity | ]. exists config.
    repeat split; first [reflexivity | assumption].
  - left. split; [reflexivity | ]. split; [reflexivity | ].
    intros ? [= <-] _. exact Hin.
Qed.
(** C5: [saveFile] overwrites, on both backends.  Once
    [saveFile(id, c1)] has succeeded, [saveFile(id, c2)] succeeds as
    well, and the storage location of [id] (the joined path of the file
    system, the object [id] of the configured bucket) then holds exactly
    [c2]. *)
Theorem saveFile_overwrites (fsb : FilesystemBackend.t) (s3b : S3Backend.t)
    (uuid : string) (c1 c2 : Buffer) (w : World.t) :
  let fs1 := run handle (FilesystemBackend.saveFile fsb uuid c1) w in
  let fs2 := run handle (FilesystemBackend.saveFile fsb uuid c2) fs1.1.2 in
  let s31 := run handle (S3Backend.saveFile s3b uuid c1) w in
  let s32 := run handle (S3Backend.saveFile s3b uuid c2) s31.1.2 in
  (fs1.1.1 = Normal null →
   fs2.1.1 = Normal null
   ∧ readFile fs2.1.2 (FilesystemBackend.getFilePath fsb uuid) = Some c2)
  ∧ (s31.1.1 = Normal null →
     s32.1.1 = Normal null
     ∧ ∃ config, S3Backend.config s3b = Some config
                 ∧ getObject s32.1.2 (Config.bucket config) uuid = Some c2).
Proof.
  intros fs1 fs2 s31 s32. split; [apply saveFile_twice | ].
  intros Hfirst.
  pose proof (S3_saveFile_effect s3b uuid c1 w) as Heff.
  cbv zeta in Heff. fold s31 in Heff.
  destruct Heff
    as [(Hthrow & _) | (_ & config & Hconfig & Hin & Hbuckets & _ & _)];
    [congruence | ].
  pose proof (S3_saveFile_effect s3b uuid c2 s31.1.2) as Heff.
  cbv zeta in Heff. fold s32 in Heff.
  destruct Heff
    as [(_ & _ & Hout) | (Hok & config' & Hconfig' & _ & _ & _ & Hobjects & _)].
  - exfalso.
    assert (is_Some (S3Backend.client s3b)) as Hclient.
    { unfold s31, S3Backend.saveFile in Hfirst.
      destruct (S3Backend.client s3b); [eauto | discriminate Hfirst]. }
    specialize (Hout config Hconfig Hclient).
    unfold hasBucket in *. rewrite Hbuckets in Hout. congruence.
  - split; [done | ]. exists config'. split; [done | ].
    unfold getObject. rewrite Hobjects. apply lookup_insert_eq.
Qed.

End Overwrite.


Section Frame.
Import Js Io Contract World Path.

Variable this : FilesystemBackend.t.

Let dir : string := FilesystemBackend.uploadDirectory this.

Lemma plain_names_apart (id1 id2 : string) :
  plainName id1 = true → plainName id2 = true → id1 ≠ id2 →
  ∀ k, keyOf (FilesystemBackend.getFilePath this id1) = Some k →
       keyOf (FilesystemBackend.getFilePath this id2) ≠ Some k.
Proof.
  intros H1 H2 Hne k.
  rewrite (keyOf_getFilePath_plain this id1 H1).
  rewrite (keyOf_getFilePath_plain this id2 H2).
  intros [= <-] [= Heq]. apply app_inv_head in Heq. congruence.
Qed.

Lemma readFile_trailing (w : World.t) (path : string) :
  trailingSeparator path = true → readFile w path = None.
Proof. intros Htrail. unfold readFile. by rewrite Htrail. Qed.

(** When that entry is a file that the upload path, read as it is
    written, does not name, the path of the second identifier names no
    file either. *)
Lemma shared_entry_unreadable (id1 id2 : string) (k : bool * list string)
    (w : World.t) (content : Buffer) :
  hasSeparator id1 = false → hasSeparator id2 = false → id1 ≠ id2 →
  ((id1 = "" ∨ id1 = ".") → (id2 = "" ∨ id2 = ".") → readFile w dir = None) →
  keyOf (FilesystemBackend.getFilePath this id1) = Some k →
  keyOf (FilesystemBackend.getFilePath this id2) = Some k →
  trailingSeparator (FilesystemBackend.getFilePath this id1) = false →
  nodeAt (files w) k = Some (File content) →
  trailingSeparator (FilesystemBackend.getFilePath this id2) = true.
Proof.
  intros H1 H2 Hne Hfile Hk1 Hk2 Htrail Hnode.
  assert (isBase k = false) as Hbase
      by (apply (nodeAt_base (files w)); congruence).
  destruct (shared_entry this id1 id2 k H1 H2 Hne Hk1 Hk2 Hbase)
    as (Hkd & Hid1 & Hid2).
  fold dir in Hkd.
  specialize (Hfile Hid1 Hid2). unfold readFile in Hfile.
  rewrite Hkd, Hnode in Hfile.
  destruct (trailingSeparator dir) eqn:Hdir; [ | done].
  destruct Hid2 as [-> | ->]; [by apply getFilePath_empty_trailing | ].
  destruct Hid1 as [-> | ->]; [ | done].
  by rewrite getFilePath_empty_trailing in Htrail.
Qed.

(** C10, for identifiers without separator: [saveFile(id1, c)] and
    [deleteFile(id1)] leave what is stored for another identifier [id2]
    as it was, whether they succeed or fail; the one pair left out is
    [""] and ["."], and this only where the upload path names a regular
    file.  Besides the entry of [id1], [saveFile] changes nothing of the
    world but, possibly, the upload directory, which it creates when it
    is missing. *)
Theorem distinct_names_do_not_interfere (id1 id2 : string) (buffer : Buffer)
    (w : World.t) :
  hasSeparator id1 = false → hasSeparator id2 = false → id1 ≠ id2 →
  ((id1 = "" ∨ id1 = ".") → (id2 = "" ∨ id2 = ".") → readFile w dir = None) →
  let saved :=
    (run handle (FilesystemBackend.saveFile this id1 buffer) w).1.2 in
  let deleted :=
    (run handle (FilesystemBackend.deleteFile this id1) w).1.2 in
  let path2 := FilesystemBackend.getFilePath this id2 in
  readFile saved path2 = readFile w path2
  ∧ readFile deleted path2 = readFile w path2
  ∧ (∀ k, keyOf (FilesystemBackend.getFilePath this id1) ≠ Some k →
          files saved !! k = files w !! k
          ∨ (keyOf dir = Some k
             ∧ nodeAt (files w) k = None ∧ files saved !! k = Some Dir))
  ∧ buckets saved = buckets w
  ∧ objects saved = objects w
  ∧ now saved = now w.
Proof.
  intros H1 H2 Hne Hfile saved deleted path2.
  pose proof (saveFile_effect this id1 buffer w) as Hsave.
  pose proof (deleteFile_effect this id1 w) as Hdelete.
  cbv zeta in Hsave, Hdelete. fold saved dir in Hsave. fold deleted in Hdelete.
  split; [ | split].
  - destruct Hsave as [(_ & _ & -> & _) | (w1 & before & Hdir & _ & Hwrite)];
      [done | ].
    assert (readFile w1 path2 = readFile w path2) as Hw1.
    { destruct Hdir as [(_ & -> & _) | (_ & _ & kd & _ & Hnone & ->)];
        [done | by apply readFile_mkdir]. }
    destruct Hwrite as [(_ & _ & ->) | (_ & k & Htrail & Hk & Hnode & _ & ->)];
      [done | ].
    destruct (decide (keyOf path2 = Some k)) as [Hsame | Hother];
      [ | rewrite <- Hw1; by apply readFile_insert_ne].
    pose proof (nodeAt_base _ _ Hnode) as Hbase.
    destruct (shared_entry this id1 id2 k H1 H2 Hne Hk Hsame Hbase)
      as (Hkd & _).
    fold dir in Hkd.
    destruct Hdir as [(Hex & -> & _) | (_ & _ & kd & Hkd' & Hnone & ->)].
    + unfold exists_ in Hex. rewrite Hkd in Hex.
      apply bool_decide_eq_true in Hex as [node Hnode'].
      destruct node as [ | content]; [done | ].
      rewrite !readFile_trailing; [done | | ];
        by eapply (shared_entry_unreadable id1 id2).
    + rewrite Hkd in Hkd'. injection Hkd' as <-. simpl in Hnode.
      by rewrite nodeAt_insert in Hnode.
  - destruct Hdelete
      as [_ [(_ & -> & _) | (_ & k & content & Htrail & Hk & Hnode & ->)]];
      [done | ].
    destruct (decide (keyOf path2 = Some k)) as [Hsame | Hother];
      [ | by apply readFile_delete_ne].
    rewrite !readFile_trailing; [done | | ];
      by eapply (shared_entry_unreadable id1 id2).
  - destruct Hsave as [(_ & _ & -> & _) | (w1 & before & Hdir & _ & Hwrite)];
      [split; [intros; by left | done] | ].
    assert ((∀ k, files w1 !! k = files w !! k
                  ∨ (keyOf dir = Some k ∧ nodeAt (files w) k = None
                     ∧ files w1 !! k = Some Dir))
            ∧ buckets w1 = buckets w ∧ objects w1 = objects w
            ∧ now w1 = now w) as (Hfiles & Hb & Ho & Hn).
    { destruct Hdir as [(_ & -> & _) | (_ & _ & kd & Hkd & Hnone & ->)];
        [split; [intros; by left | done] | ].
      split; [ | done]. intros k. simpl.
      destruct (decide (kd = k)) as [<- | Hk].
      - right. by rewrite lookup_insert_eq.
      - left. by apply lookup_insert_ne. }
    destruct Hwrite as [(_ & _ & ->) | (_ & k1 & _ & Hk1 & _ & _ & ->)];
      [by split; [intros | ] | ].
    split; [ | done]. intros k Hk. simpl.
    rewrite lookup_insert_ne by congruence.
    apply Hfiles.
Qed.

End Frame.

(** ** The identifier is not sanitized *)

Section Unsanitized.
Import Js Io Contract World.

Context {S : Type} (h : Handler S) (s : S).
Variable this : FilesystemBackend.t.

Let dir : string := FilesystemBackend.uploadDirectory this.
Let root : bool := Path.isAbsolute dir.
Let base : list string :=
  Path.normalizeSegments (negb root) (Path.segments dir).

(** Inside the flat layout: one name after the segments of the upload
    directory. *)
Lemma inDirectory_ends (path : string) (segs : list string) :
  keyOf path = Some (root, segs) →
  inDirectory dir path = true ↔ ∃ name, name ≠ ".." ∧ segs = base ++ [name].
Proof.
  intros Hk. split.
  - intros Hin. apply (inDirectory_iff this _ _ Hk) in Hin.
    fold dir root base in Hin. simpl in Hin.
    destruct Hin as (_ & Hparent & Hsome & Hlast).
    pose proof (app_removelast_last "" Hsome) as Hsplit.
    rewrite Hparent in Hsplit. exists (List.last segs "").
    split; [ | done]. intros Hup. rewrite Hsplit, Hup in Hlast.
    by rewrite last_snoc in Hlast.
  - intros (name & Hname & ->). apply (inDirectory_iff this _ _ Hk).
    fold dir root base. simpl. rewrite removelast_last, last_snoc.
    repeat split; [by destruct base | congruence].
Qed.

(** C9, as the code has it: the identifier is joined to the upload
    directory as it is, and the joined path is what [fs.unlink] and
    [fs.writeFile] are asked for; [getFileUrl] appends the identifier
    as it is.  The join only normalizes: the entry named is what the
    identifier's own normal form (the [".."] it cannot cancel, then the
    names it keeps) leads to from the upload directory, and it lies in the
    flat layout exactly when that is one name directly inside the upload
    directory.  So an identifier that keeps no [".."] is outside exactly
    when it keeps several names (below the directory) or none (the
    directory itself), and inside when it keeps one, as ["./name"] and
    ["x/../name"] do; an identifier that keeps a [".."] is outside, the
    upload directory not being the root, unless the directory's own name
    is among the names it keeps.  The absolute identifier of a backend
    without upload path is outside as well. *)
Theorem getFilePath_joins_unsanitized (uuid : string) (buffer : Buffer) :
  let save := run h (FilesystemBackend.saveFile this uuid buffer) s in
  let del := run h (FilesystemBackend.deleteFile this uuid) s in
  let url := run h (FilesystemBackend.getFileUrl this uuid) s in
  let path := FilesystemBackend.getFilePath this uuid in
  let resolved :=
    Path.normalizeSegments (negb root) (Path.segments dir ++ ownForm uuid) in
  path = Path.join [dir; uuid]
  ∧ requests del.2 = [unlink (Path.join [dir; uuid])]
  ∧ (∀ target data, writeFile target data ∈ requests save.2 →
                    target = Path.join [dir; uuid] ∧ data = buffer)
  ∧ url.1.1 = Normal ("/uploads/" +:+ uuid)
  ∧ (uuid ≠ "" → dir ≠ "" ∨ Path.isAbsolute uuid = false →
     keyOf path = Some (root, resolved)
     ∧ (inDirectory dir path = true
        ↔ ∃ name, name ≠ ".." ∧ resolved = base ++ [name])
     ∧ (".." ∉ ownForm uuid →
        resolved = base ++ ownForm uuid
        ∧ (inDirectory dir path = true ↔ ∃ name, ownForm uuid = [name]))
     ∧ (".." ∈ ownForm uuid → isRoot dir = false →
        (∀ d, last base = Some d → d ≠ ".." → d ∉ ownForm uuid) →
        inDirectory dir path = false))
  ∧ (dir = "" → Path.isAbsolute uuid = true → inDirectory dir path = false).
Proof.
  intros save del url path resolved. subst save del url.
  split; [reflexivity | ]. split; [ | split; [ | split; [reflexivity | ]]].
  - apply (always_run (λ _ calls, requests calls = _)).
    unfold FilesystemBackend.deleteFile. answers; reflexivity.
  - apply (always_run (λ _ calls, ∀ target data,
      writeFile target data ∈ requests calls →
      target = Path.join [dir; uuid] ∧ data = buffer)).
    unfold FilesystemBackend.saveFile, FilesystemBackend.ensureDirectory.
    answers; unfold requests; simpl;
      match goal with
      | Hin : _ ∈ _ |- _ =>
          repeat (apply elem_of_cons in Hin as [Hin | Hin];
                  [by inversion Hin | ]);
          by apply elem_of_nil in Hin
      end.
  - split; [ | by apply absolute_identifier].
    intros Hne Hrel.
    pose proof (keyOf_getFilePath_ownForm this uuid Hne Hrel) as Hk.
    fold dir root path resolved in Hk.
    split; [exact Hk | ]. split; [by apply inDirectory_ends | ].
    split; [ | by apply climbing_identifier].
    intros Hup.
    destruct (descending_identifier this uuid Hne Hrel Hup) as [Hk' Hiff].
    split; [ | exact Hiff].
    fold path in Hk'. rewrite Hk in Hk'. by injection Hk'.
Qed.

End Unsanitized.

(** ** The properties at work, and where the contract is not met *)

Section Instances.
Import Js Io Contract World.


(** C2 fails on the code.  The directory [uploads] is missing when
    [fs.access] looks for it and another actor creates it before
    [fs.mkdir] runs: [fs.mkdir] is rejected with [EEXIST], and
    [saveFile], far from going on, throws and writes nothing, although
    the directory is there. *)
Lemma saveFile_fails_when_directory_appears :
  omap mkdirCode Demo.raced.2 = ["EEXIST"]
  ∧ Demo.raced.1.1 = Throw (MediaBackendError "Could not create 'uploads'")
  ∧ requests Demo.raced.2 = [access "uploads"; mkdir "uploads"]
  ∧ isDirectory Demo.raced.1.2.2 "uploads" = true
  ∧ readFile Demo.raced.1.2.2 "uploads/abc" = None.
Proof. vm_compute. repeat split. Qed.

Lemma saveFile_mkdir_rejected_is_fatal_witness :
  existsb mkdirRejected Demo.raced.2 = true
  ∧ Demo.raced.1.1 = Throw (MediaBackendError "Could not create 'uploads'")
  ∧ existsb isFsWriteFile Demo.raced.2 = false.
Proof.
  split; [reflexivity | ].
  exact (saveFile_mkdir_rejected_is_fatal handleAmong
           ([id; Demo.mkdirUploads], World.empty)
           Demo.filesystemBackend "abc" [Byte.x01] eq_refl).
Defined.

Lemma saveFile_overwrites_witness :
  Demo.saved.1.1 = Normal null ∧ Demo.put.1.1 = Normal null
  ∧ Demo.savedAgain.1.1 = Normal null
  ∧ readFile Demo.savedAgain.1.2 "uploads/abc" = Some [Byte.x02]
  ∧ Demo.putAgain.1.1 = Normal null
  ∧ getObject Demo.putAgain.1.2 "media" "abc" = Some [Byte.x02].
Proof.
  pose proof (saveFile_overwrites Demo.filesystemBackend Demo.s3Backend
                "abc" [Byte.x01] [Byte.x02] Demo.world) as [Hfs Hs3].
  destruct (Hfs eq_refl) as [Hfs2 Hread].
  destruct (Hs3 eq_refl) as (Hs32 & config & Hconfig & Hobject).
  injection Hconfig as <-.
  repeat split; first [reflexivity | assumption].
Defined.


Lemma constructor_reads_endpoint_witness :
  (∃ options,
     Minio.endPoint options = "s3.example.org"
     ∧ Minio.port options = Some 9000%Z
     ∧ Minio.useSSL options = true
     ∧ (run handle (S3Backend.constructor Demo.newURL Demo.refusal
                      (Demo.mediaConfig Config.S3)) World.empty).1.1
       = Normal {| S3Backend.mediaConfig := Demo.mediaConfig Config.S3;
                   S3Backend.config :=
                     Some (Config.s3
                             (Config.backend (Demo.mediaConfig Config.S3)));
                   S3Backend.client := Some options |})
  ∧ ∃ err,
      (run handle (S3Backend.constructor Demo.newURL Demo.refusal
                     Demo.hostlessConfig) World.empty).1.1
        = Throw (Native err)
      ∧ name err = "InvalidEndpointError".
Proof.
  split.
  - destruct (constructor_reads_endpoint Demo.newURL Demo.refusal handle
                World.empty (Demo.mediaConfig Config.S3) Demo.endpoint
                eq_refl eq_refl eq_refl)
      as (options & Hhost & _ & Hport & Hssl & Hrun).
    exists options. split; [exact Hhost | ]. split; [exact Hport | ].
    split; [by apply Hssl | ].
    rewrite Hrun. unfold Demo.refusal. rewrite Hhost. reflexivity.
  - destruct (constructor_reads_endpoint Demo.newURL Demo.refusal handle
                World.empty Demo.hostlessConfig Demo.hostless
                eq_refl eq_refl eq_refl)
      as (options & Hhost & _ & _ & _ & Hrun).
    eexists. rewrite Hrun. unfold Demo.refusal. rewrite Hhost.
    split; reflexivity.
Defined.

Lemma inactive_S3Backend_throws_MediaBackendError_witness :
  ∃ this,
    (run handle (S3Backend.constructor Demo.newURL Demo.refusal
                   (Demo.mediaConfig Config.FILESYSTEM)) World.empty).1.1
      = Normal this
    ∧ (run handle (S3Backend.saveFile this "abc" [Byte.x01]) Demo.world).1.1
      = Throw (MediaBackendError "Could not save file abc on S3")
    ∧ (run handle (S3Backend.deleteFile this "abc") Demo.world).1.1
      = Throw (MediaBackendError "Could not delete 'abc' on S3")
    ∧ (run handle (S3Backend.getFileUrl this "abc") Demo.world).1.1
      = Throw (MediaBackendError "Could not get URL for 'abc' on S3").
Proof.
  assert (Config.use (Config.backend (Demo.mediaConfig Config.FILESYSTEM))
          ≠ Config.S3) as Hinactive by discriminate.
  destruct (inactive_S3Backend_throws_MediaBackendError Demo.newURL
              Demo.refusal handle World.empty
              (Demo.mediaConfig Config.FILESYSTEM) Hinactive)
    as (this & Hthis & _ & _ & Hops).
  exists this. split; [exact Hthis | ].
  destruct (Hops World.t handle Demo.world "abc" [Byte.x01])
    as (Hsave & Hdelete & Hurl & _).
  repeat split; assumption.
Defined.

(** C9 fails on the code.  The identifiers ["./a"] and ["x/../a"]
    contain separators, the second a [".."] segment as well, and both
    are joined to [uploads/a], an entry of the flat upload directory:
    that is the path [deleteFile] unlinks. *)
Lemma identifier_with_separator_stays_inside :
  hasSeparator "./a" = true
  ∧ hasSeparator "x/../a" = true
  ∧ ".." ∈ Path.segments "x/../a"
  ∧ FilesystemBackend.getFilePath Demo.filesystemBackend "./a" = "uploads/a"
  ∧ FilesystemBackend.getFilePath Demo.filesystemBackend "x/../a" = "uploads/a"
  ∧ inDirectory "uploads" "uploads/a" = true
  ∧ requests (run handle
                (FilesystemBackend.deleteFile Demo.filesystemBackend "./a")
                World.empty).2 = [unlink "uploads/a"].
Proof. vm_compute. repeat split. set_solver. Qed.

(** C10 fails on the code.  With an upload path that names a regular
    file, the identifiers [""] and ["."], distinct and without
    separator, both name that file: saving under the first replaces
    what is stored under the second. *)
Lemma empty_and_dot_identifiers_collide :
  "" ≠ "." ∧ hasSeparator "" = false ∧ hasSeparator "." = false
  ∧ Demo.collided.1.1 = Normal null
  ∧ readFile Demo.fileAsDirectory
      (FilesystemBackend.getFilePath Demo.misconfigured ".")
    = Some [Byte.x01]
  ∧ readFile Demo.collided.1.2
      (FilesystemBackend.getFilePath Demo.misconfigured ".")
    = Some [Byte.x02].
Proof. vm_compute. repeat split. discriminate. Qed.

Lemma deleteFile_removes_witness :
  plainName "abc" = true
  ∧ readFile Cases.stocked "uploads/abc" = Some [Byte.x01]
  ∧ Cases.deleted.1.1 = Normal ()
  ∧ requests Cases.deleted.2 = [unlink "uploads/abc"]
  ∧ readFile Cases.deleted.1.2.2 "uploads/abc" = None
  ∧ (run handleFaulty
       (FilesystemBackend.deleteFile Demo.filesystemBackend "abc")
       ([], Cases.deleted.1.2.2)).1.1
    = Throw (MediaBackendError "Could not delete file 'uploads/abc'")
  ∧ inDirectory "uploads" "uploads/abc" = true.
Proof.
  pose proof (deleteFile_removes Demo.filesystemBackend handle World.empty
                [] "abc" Cases.stocked) as (_ & Hrequests & Hrun & Hplace).
  change (run handleFaulty
            (FilesystemBackend.deleteFile Demo.filesystemBackend "abc")
            ([], Cases.stocked)) with Cases.deleted in Hrun, Hrequests.
  assert (Cases.deleted.1.1 = Normal ()) as Hok by reflexivity.
  rewrite Hok in Hrun. destruct Hrun as (_ & _ & Hgone & Hagain).
  destruct (Hplace eq_refl) as [_ Hinside].
  split; [reflexivity | ]. split; [reflexivity | ]. split; [exact Hok | ].
  split; [exact Hrequests | ]. split; [exact Hgone | ].
  split; [exact (Hagain []) | exact Hinside].
Defined.

Lemma getFilePath_joins_unsanitized_witness :
  FilesystemBackend.getFilePath Demo.filesystemBackend "a/b/c"
    = "uploads/a/b/c"
  ∧ inDirectory "uploads"
      (FilesystemBackend.getFilePath Demo.filesystemBackend "a/b/c") = false
  ∧ FilesystemBackend.getFilePath Demo.filesystemBackend "../../x" = "../x"
  ∧ inDirectory "uploads"
      (FilesystemBackend.getFilePath Demo.filesystemBackend "../../x") = false
  ∧ FilesystemBackend.getFilePath Demo.filesystemBackend "x/../a"
    = "uploads/a"
  ∧ inDirectory "uploads"
      (FilesystemBackend.getFilePath Demo.filesystemBackend "x/../a") = true.
Proof.
  assert (∀ uuid : string, "uploads" ≠ "" ∨ Path.isAbsolute uuid = false)
    as Hdir by (intros; by left).
  pose proof (getFilePath_joins_unsanitized handle World.empty
                Demo.filesystemBackend "a/b/c" [])
    as (_ & _ & _ & _ & Hdown & _).
  pose proof (getFilePath_joins_unsanitized handle World.empty
                Demo.filesystemBackend "../../x" [])
    as (_ & _ & _ & _ & Hup & _).
  pose proof (getFilePath_joins_unsanitized handle World.empty
                Demo.filesystemBackend "x/../a" [])
    as (_ & _ & _ & _ & Hback & _).
  destruct (Hdown ltac:(discriminate) (Hdir _)) as (_ & _ & Hdown' & _).
  destruct (Hup ltac:(discriminate) (Hdir _)) as (_ & _ & _ & Hup').
  destruct (Hback ltac:(discriminate) (Hdir _)) as (_ & _ & Hback' & _).
  split; [reflexivity | ]. split.
  { apply not_true_is_false. intros Hin.
    assert (".." ∉ ownForm "a/b/c") as Hno.
    { intros Hmem.
      repeat (apply elem_of_cons in Hmem as [Hmem | Hmem];
              [discriminate Hmem | ]).
      by apply elem_of_nil in Hmem. }
    destruct (Hdown' Hno) as [_ Hiff]. apply Hiff in Hin as [name Hname].
    discriminate Hname. }
  split; [reflexivity | ]. split.
  { apply Hup'; [by left | reflexivity | ].
    intros d [= <-] _ Hmem.
    repeat (apply elem_of_cons in Hmem as [Hmem | Hmem];
            [discriminate Hmem | ]).
    by apply elem_of_nil in Hmem. }
  split; [reflexivity | ].
  assert (".." ∉ ownForm "x/../a") as Hno.
  { intros Hmem.
    repeat (apply elem_of_cons in Hmem as [Hmem | Hmem];
            [discriminate Hmem | ]).
    by apply elem_of_nil in Hmem. }
  destruct (Hback' Hno) as [_ Hiff]. apply Hiff. by exists "a".
Defined.

Lemma distinct_names_do_not_interfere_witness :
  hasSeparator ".." = false ∧ hasSeparator "abc" = false ∧ ".." ≠ "abc"
  ∧ readFile
      (run handle
         (FilesystemBackend.saveFile Demo.filesystemBackend ".." [Byte.x02])
         Cases.stocked).1.2 "uploads/abc" = Some [Byte.x01]
  ∧ readFile
      (run handle
         (FilesystemBackend.deleteFile Demo.filesystemBackend "..")
         Cases.stocked).1.2 "uploads/abc" = Some [Byte.x01]
  ∧ readFile
      (run handle
         (FilesystemBackend.saveFile Demo.misconfigured "" [Byte.x02])
         Demo.fileAsDirectory).1.2
      (FilesystemBackend.getFilePath Demo.misconfigured "..")
    = readFile Demo.fileAsDirectory
        (FilesystemBackend.getFilePath Demo.misconfigured "..").
Proof.
  assert (".." ≠ "abc") as Hne by discriminate.
  assert ("" ≠ "..") as Hne' by discriminate.
  pose proof (distinct_names_do_not_interfere Demo.filesystemBackend
                ".." "abc" [Byte.x02] Cases.stocked eq_refl eq_refl Hne
                ltac:(intros _ [H | H]; discriminate H))
    as (Hsaved & Hdeleted & _).
  pose proof (distinct_names_do_not_interfere Demo.misconfigured
                "" ".." [Byte.x02] Demo.fileAsDirectory eq_refl eq_refl Hne'
                ltac:(intros _ [H | H]; discriminate H))
    as (Hmixed & _).
  repeat split; try assumption.
Defined.

End Instances.

(** ** What the backends ask for, and what they log *)

Section Protocol.
Import Js Io Contract Trace.

Context {S : Type} (h : Handler S) (s : S).

(** X1: whatever the file system answers, [FilesystemBackend.saveFile]
    asks for [fs.access] of the upload directory first, for [fs.mkdir]
    exactly when [fs.access] was rejected, and for [fs.writeFile] of the
    joined path exactly when one of the two was fulfilled; it asks for
    nothing else, and it returns exactly when [fs.writeFile] was
    fulfilled. *)
Theorem saveFile_protocol
    (this : FilesystemBackend.t) (uuid : string) (buffer : Buffer) :
  let dir := FilesystemBackend.uploadDirectory this in
  let path := FilesystemBackend.getFilePath this uuid in
  let r := run h (FilesystemBackend.saveFile this uuid buffer) s in
  (r.1.1, settlements r.2) ∈
    [(Normal null, [(access dir, true); (writeFile path buffer, true)]);
     (Throw (MediaBackendError ("Could not save file '" +:+ path +:+ "'")),
      [(access dir, true); (writeFile path buffer, false)]);
     (Normal null,
      [(access dir, false); (mkdir dir, true); (writeFile path buffer, true)]);
     (Throw (MediaBackendError ("Could not save file '" +:+ path +:+ "'")),
      [(access dir, false); (mkdir dir, true); (writeFile path buffer, false)]);
     (Throw (MediaBackendError ("Could not create '" +:+ dir +:+ "'")),
      [(access dir, false); (mkdir dir, false)])].
Proof.
  cbv zeta.
  apply (always_run (λ c calls, (c, settlements calls) ∈ _)).
  unfold FilesystemBackend.saveFile, FilesystemBackend.ensureDirectory.
  answers; unfold settlements; simpl; set_solver.
Qed.

(** X2: every rejection that makes an operation fail is reported to
    [logger.error] with the message and the stack of the error and the
    name of the method, and nothing else is: a rejected [fs.access] is
    not, and an operation that returns has logged no error.  This holds
    for the three operations that can fail on the file system side and,
    for a backend that was set up, on the S3 side. *)
Theorem rejections_are_logged
    (fsb : FilesystemBackend.t) (s3b : S3Backend.t)
    (client : Minio.Client) (config : Config.S3Config)
    (uuid : string) (buffer : Buffer) :
  S3Backend.client s3b = Some client → S3Backend.config s3b = Some config →
  let fsSave := run h (FilesystemBackend.saveFile fsb uuid buffer) s in
  let fsDelete := run h (FilesystemBackend.deleteFile fsb uuid) s in
  let s3Save := run h (S3Backend.saveFile s3b uuid buffer) s in
  let s3Delete := run h (S3Backend.deleteFile s3b uuid) s in
  let s3Url := run h (S3Backend.getFileUrl s3b uuid) s in
  (errorLog fsSave.2 = reported saveFileContext fsSave.2
   ∧ length (errorLog fsSave.2) = (if isThrow fsSave.1.1 then 1 else 0))
  ∧ (errorLog fsDelete.2 = reported unlinkContext fsDelete.2
     ∧ length (errorLog fsDelete.2) = (if isThrow fsDelete.1.1 then 1 else 0))
  ∧ (errorLog s3Save.2 = reported (storeContext "saveFile") s3Save.2
     ∧ length (errorLog s3Save.2) = (if isThrow s3Save.1.1 then 1 else 0))
  ∧ (errorLog s3Delete.2 = reported (storeContext "deleteFile") s3Delete.2
     ∧ length (errorLog s3Delete.2) = (if isThrow s3Delete.1.1 then 1 else 0))
  ∧ (errorLog s3Url.2 = reported (storeContext "getFileUrl") s3Url.2
     ∧ length (errorLog s3Url.2) = (if isThrow s3Url.1.1 then 1 else 0)).
Proof.
  intros Hclient Hconfig. cbv zeta.
  repeat apply conj.
  - apply (always_run (λ _ calls, errorLog calls = reported _ calls)).
    unfold FilesystemBackend.saveFile, FilesystemBackend.ensureDirectory.
    answers; reflexivity.
  - apply (always_run (λ c calls,
      length (errorLog calls) = if isThrow c then 1 else 0)).
    unfold FilesystemBackend.saveFile, FilesystemBackend.ensureDirectory.
    answers; reflexivity.
  - apply (always_run (λ _ calls, errorLog calls = reported _ calls)).
    unfold FilesystemBackend.deleteFile. answers; reflexivity.
  - apply (always_run (λ c calls,
      length (errorLog calls) = if isThrow c then 1 else 0)).
    unfold FilesystemBackend.deleteFile. answers; reflexivity.
  - apply (always_run (λ _ calls, errorLog calls = reported _ calls)).
    unfold S3Backend.saveFile. rewrite Hclient, Hconfig. answers; reflexivity.
  - apply (always_run (λ c calls,
      length (errorLog calls) = if isThrow c then 1 else 0)).
    unfold S3Backend.saveFile. rewrite Hclient, Hconfig. answers; reflexivity.
  - apply (always_run (λ _ calls, errorLog calls = reported _ calls)).
    unfold S3Backend.deleteFile. rewrite Hclient, Hconfig. answers; reflexivity.
  - apply (always_run (λ c calls,
      length (errorLog calls) = if isThrow c then 1 else 0)).
    unfold S3Backend.deleteFile. rewrite Hclient, Hconfig. answers; reflexivity.
  - apply (always_run (λ _ calls, errorLog calls = reported _ calls)).
    unfold S3Backend.getFileUrl. rewrite Hclient, Hconfig. answers; reflexivity.
  - apply (always_run (λ c calls,
      length (errorLog calls) = if isThrow c then 1 else 0)).
    unfold S3Backend.getFileUrl. rewrite Hclient, Hconfig. answers; reflexivity.
Qed.

(** X3: a backend that was set up sends the store one request per
    operation, for the configured bucket and the identifier as it is; the
    operation returns exactly when that request was fulfilled.  [saveFile] and [deleteFile] then log one
    line, and [getFileUrl] returns the URL the client resolved with,
    unchanged. *)
Theorem S3_operations_pass_through
    (this : S3Backend.t) (client : Minio.Client) (config : Config.S3Config)
    (uuid : string) (buffer : Buffer) :
  S3Backend.client this = Some client → S3Backend.config this = Some config →
  let bucket := Config.bucket config in
  let save := run h (S3Backend.saveFile this uuid buffer) s in
  let del := run h (S3Backend.deleteFile this uuid) s in
  let url := run h (S3Backend.getFileUrl this uuid) s in
  (settlements save.2 = [(putObject bucket uuid buffer, negb (isThrow save.1.1))]
   ∧ infoLog save.2
     = if isThrow save.1.1 then [] else [("Uploaded file " +:+ uuid, "saveFile")])
  ∧ (settlements del.2 = [(removeObject bucket uuid, negb (isThrow del.1.1))]
     ∧ infoLog del.2
       = if isThrow del.1.1 then []
         else [("Deleted uploaded file " +:+ uuid, "deleteFile")])
  ∧ (settlements url.2
       = [(presignedGetObject bucket uuid, negb (isThrow url.1.1))]
     ∧ omap presignedOf url.2
       = match url.1.1 with
         | Normal signed => [signed]
         | Throw _ => []
         end).
Proof.
  intros Hclient Hconfig. cbv zeta.
  repeat apply conj.
  - apply (always_run (λ c calls, settlements calls = [(_, negb (isThrow c))])).
    unfold S3Backend.saveFile. rewrite Hclient, Hconfig. answers; reflexivity.
  - apply (always_run (λ c calls, infoLog calls = if isThrow c then _ else _)).
    unfold S3Backend.saveFile. rewrite Hclient, Hconfig. answers; reflexivity.
  - apply (always_run (λ c calls, settlements calls = [(_, negb (isThrow c))])).
    unfold S3Backend.deleteFile. rewrite Hclient, Hconfig. answers; reflexivity.
  - apply (always_run (λ c calls, infoLog calls = if isThrow c then _ else _)).
    unfold S3Backend.deleteFile. rewrite Hclient, Hconfig. answers; reflexivity.
  - apply (always_run (λ c calls, settlements calls = [(_, negb (isThrow c))])).
    unfold S3Backend.getFileUrl. rewrite Hclient, Hconfig. answers; reflexivity.
  - apply (always_run (λ c calls,
      omap presignedOf calls
      = match c with Normal signed => [signed] | Throw _ => [] end)).
    unfold S3Backend.getFileUrl. rewrite Hclient, Hconfig. answers; reflexivity.
Qed.


Variable newURL : string → option Url.URL.
Variable refusal : Minio.Client → option Error.

(** X4: neither constructor asks anything of the file system or of the
    store; each only names itself to the logger.  The one of
    [FilesystemBackend] always returns, with the configured upload path.
    The one of [S3Backend] returns without client when another backend is
    selected, whatever the endpoint.  When S3 is selected it returns only
    with a client, built for the host of the endpoint URL and taken by the
    client library; when the endpoint is no URL, or the library does not
    take the options, the error of [new URL] or of [new Client] leaves the
    constructor as it is, not as a [MediaBackendError]. *)
Theorem constructors_touch_no_storage (mediaConfig : Config.MediaConfig) :
  let backend := Config.backend mediaConfig in
  let endPoint := Config.endPoint (Config.s3 backend) in
  let fsb := run h (FilesystemBackend.constructor mediaConfig) s in
  let s3b := run h (S3Backend.constructor newURL refusal mediaConfig) s in
  fsb.1.1 = Normal {| FilesystemBackend.mediaConfig := mediaConfig;
                      FilesystemBackend.uploadDirectory :=
                        Config.uploadPath (Config.filesystem backend) |}
  ∧ settlements fsb.2 = []
  ∧ omap contextOf fsb.2 = ["FilesystemBackend"]
  ∧ settlements s3b.2 = []
  ∧ omap contextOf s3b.2 = ["S3Backend"]
  ∧ match s3b.1.1 with
    | Normal this =>
        if decide (Config.use backend = Config.S3)
        then ∃ url client,
               newURL endPoint = Some url
               ∧ S3Backend.client this = Some client
               ∧ Minio.endPoint client = Url.hostname url
               ∧ refusal client = None
               ∧ S3Backend.config this = Some (Config.s3 backend)
        else S3Backend.client this = None ∧ S3Backend.config this = None
    | Throw e =>
        Config.use backend = Config.S3
        ∧ ∃ err, e = Native err
            ∧ ((newURL endPoint = None ∧ name err = "TypeError")
               ∨ ∃ url options,
                   newURL endPoint = Some url
                   ∧ Minio.endPoint options = Url.hostname url
                   ∧ refusal options = Some err)
    end.
Proof.
  cbv zeta. unfold FilesystemBackend.constructor, S3Backend.constructor.
  simpl. destruct (h _ (LoggerSetContext "FilesystemBackend") s) as [[] s1].
  destruct (h _ (LoggerSetContext "S3Backend") s) as [[] s2]. simpl.
  do 3 (split; [reflexivity | ]).
  destruct (decide (Config.use (Config.backend mediaConfig) ≠ Config.S3))
    as [Hother | Hs3]; simpl.
  - do 2 (split; [reflexivity | ]). by rewrite decide_False.
  - apply dec_stable in Hs3.
    destruct (newURL _) as [url | ] eqn:Hurl; simpl.
    + match goal with
      | |- context [refusal ?o] => destruct (refusal o) as [err | ] eqn:Hrefusal
      end; simpl; (do 2 (split; [reflexivity | ])).
      * split; [done | ]. exists err. split; [done | ]. right.
        eexists url, _. split; [done | ]. split; [ | exact Hrefusal].
        reflexivity.
      * rewrite decide_True by done.
        eexists url, _. split; [done | ]. split; [reflexivity | ].
        split; [reflexivity | ]. split; [exact Hrefusal | reflexivity].
    + do 2 (split; [reflexivity | ]). split; [done | ].
      eexists. split; [reflexivity | ]. by left.
Qed.

End Protocol.

(** ** Footprints and life cycle on the file system *)

Section Footprint.
Import Js Io Contract Trace World.

Variable this : FilesystemBackend.t.

Let dir : string := FilesystemBackend.uploadDirectory this.

Lemma exists_false_lookup (w : World.t) (path : string)
    (k : bool * list string) :
  keyOf path = Some k → exists_ w path = false →
  isBase k = false ∧ files w !! k = None.
Proof.
  unfold exists_, nodeAt. intros -> Hex%bool_decide_eq_false.
  destruct (isBase k); [by destruct Hex | ].
  split; [done | ]. destruct (files w !! k); [by destruct Hex | done].
Qed.

(** X5: a [saveFile] that fails cleans nothing up.  Also on a device
    that may fail, it never asks for [fs.unlink]; it leaves every file
    under another path with the content it had, and takes no entry away;
    at its own path it leaves what was there, or a part of the content,
    from its start: the file that [fs.writeFile] had opened when the
    device failed.  Nothing of the object store changes. *)
Theorem failed_saveFile_cleans_nothing (faults : list (option Fault))
    (uuid : string) (buffer : Buffer) (w : World.t) :
  let path := FilesystemBackend.getFilePath this uuid in
  let r := run handleFaulty (FilesystemBackend.saveFile this uuid buffer)
             (faults, w) in
  isThrow r.1.1 = true →
  (∀ other, keyOf other ≠ keyOf path →
            readFile r.1.2.2 other = readFile w other)
  ∧ (readFile r.1.2.2 path = readFile w path
     ∨ ∃ n, readFile r.1.2.2 path = Some (take n buffer))
  ∧ (∀ k, is_Some (files w !! k) → is_Some (files r.1.2.2 !! k))
  ∧ (∀ p, unlink p ∉ requests r.2)
  ∧ objects r.1.2.2 = objects w
  ∧ buckets r.1.2.2 = buckets w.
Proof.
  intros path r Hthrow.
  assert (∀ p, unlink p ∉ requests r.2) as Hkeep.
  { subst r. intros target.
    apply (always_run (λ _ calls, unlink target ∉ requests calls)).
    unfold FilesystemBackend.saveFile, FilesystemBackend.ensureDirectory.
    answers; unfold requests; simpl; intros Hin;
      repeat (apply elem_of_cons in Hin as [Hin | Hin];
              [by inversion Hin | ]);
      by apply elem_of_nil in Hin. }
  pose proof (saveFile_faulty_effect this faults uuid buffer w) as Heff.
  cbv zeta in Heff. fold dir path r in Heff.
  destruct Heff as (w1 & Hdir & Hwrite).
  assert ((∀ other, readFile w1 other = readFile w other)
          ∧ (∀ k, is_Some (files w !! k) → is_Some (files w1 !! k))
          ∧ objects w1 = objects w ∧ buckets w1 = buckets w)
    as (Hread1 & Hsome1 & Hobjects1 & Hbuckets1).
  { destruct Hdir as [-> | (kd & _ & Hnone & ->)]; [done | ].
    split; [intros other; by apply readFile_mkdir | ].
    split; [ | done]. intros k Hsome. simpl.
    rewrite lookup_insert. by case_decide. }
  destruct Hwrite as [(_ & ->) | (k & content & Htrail & Hk & Hnode & -> & Hcontent)];
    [repeat split; try done; by left | ].
  destruct Hcontent as [(Hok & _) | (_ & n & ->)];
    [by rewrite Hok in Hthrow | ].
  split; [ | split; [ | split; [ | done]]].
  - intros other Hother. rewrite <- Hread1.
    apply readFile_insert_ne. by rewrite <- Hk.
  - right. exists n. by apply readFile_written.
  - intros k' Hsome. simpl. rewrite lookup_insert.
    case_decide; [done | by apply Hsome1].
Qed.

(** X6: a file lives from [saveFile] to [deleteFile]: after a
    [saveFile(id, c)] that succeeded, [deleteFile(id)] succeeds and the
    path names no file any more; when the directory was there and the path
    named nothing before, the file system is then back where it
    started. *)
Theorem saveFile_then_deleteFile
    (uuid : string) (buffer : Buffer) (w : World.t) :
  let path := FilesystemBackend.getFilePath this uuid in
  let saved := run handle (FilesystemBackend.saveFile this uuid buffer) w in
  let deleted :=
    run handle (FilesystemBackend.deleteFile this uuid) saved.1.2 in
  saved.1.1 = Normal null →
  deleted.1.1 = Normal ()
  ∧ readFile deleted.1.2 path = None
  ∧ (exists_ w dir = true → exists_ w path = false →
     files deleted.1.2 = files w).
Proof.
  intros path saved deleted Hsaved.
  pose proof (saveFile_success this uuid buffer w Hsaved) as [_ Hread].
  fold path saved in Hread.
  pose proof (deleteFile_effect this uuid saved.1.2) as Hdel.
  cbv zeta in Hdel. fold path deleted in Hdel.
  destruct Hdel as [_ [(_ & _ & Hnone)
                       | (Hok & k & content & Htrail & Hk & Hnode & Hw)]];
    [congruence | ].
  split; [done | ].
  assert (isBase k = false) as Hbase
      by (apply (nodeAt_base (files saved.1.2)); congruence).
  split.
  - rewrite Hw. unfold readFile. rewrite Htrail, Hk. simpl.
    by rewrite nodeAt_delete.
  - intros Hdir Hfresh.
    destruct (exists_false_lookup w path k Hk Hfresh) as [_ Hlookup].
    pose proof (saveFile_effect this uuid buffer w) as Heff.
    cbv zeta in Heff. fold dir path saved in Heff.
    destruct Heff as [(Hno & _) | (w1 & before & Hdir' & _ & Hwrite)];
      [congruence | ].
    destruct Hdir' as [(_ & -> & _) | (Hno & _)]; [ | congruence].
    destruct Hwrite as [(_ & Hthrow & _) | (_ & k' & _ & Hk' & _ & _ & Hw')];
      [congruence | ].
    rewrite Hk in Hk'. injection Hk' as <-.
    rewrite Hw, Hw'. simpl. by apply delete_insert_id.
Qed.

(** X7: what the two operations can touch, for any identifier.
    [saveFile] changes the entry its joined path names and may add the
    upload directory; it removes nothing.  [deleteFile] changes the entry
    its joined path names only; it creates nothing, so not the upload
    directory either.  A directory stays a directory under both: none is
    replaced by a file or removed.  Neither touches the object store. *)
Theorem operations_footprint (uuid : string) (buffer : Buffer) (w : World.t) :
  let path := FilesystemBackend.getFilePath this uuid in
  let saved :=
    (run handle (FilesystemBackend.saveFile this uuid buffer) w).1.2 in
  let deleted :=
    (run handle (FilesystemBackend.deleteFile this uuid) w).1.2 in
  (∀ k, keyOf path ≠ Some k →
        files saved !! k = files w !! k
        ∨ (keyOf dir = Some k
           ∧ files w !! k = None ∧ files saved !! k = Some Dir))
  ∧ (∀ k, is_Some (files w !! k) → is_Some (files saved !! k))
  ∧ (∀ k, keyOf path ≠ Some k → files deleted !! k = files w !! k)
  ∧ (∀ k, is_Some (files deleted !! k) → is_Some (files w !! k))
  ∧ (∀ k, files w !! k = Some Dir →
          files saved !! k = Some Dir ∧ files deleted !! k = Some Dir)
  ∧ objects saved = objects w ∧ objects deleted = objects w
  ∧ buckets saved = buckets w ∧ buckets deleted = buckets w.
Proof.
  intros path saved deleted.
  pose proof (saveFile_effect this uuid buffer w) as Hsave.
  pose proof (deleteFile_effect this uuid w) as Hdelete.
  cbv zeta in Hsave, Hdelete.
  fold dir path saved in Hsave. fold path deleted in Hdelete.
  assert ((∀ k, keyOf path ≠ Some k → files deleted !! k = files w !! k)
          ∧ (∀ k, is_Some (files deleted !! k) → is_Some (files w !! k))
          ∧ (∀ k, files w !! k = Some Dir → files deleted !! k = Some Dir)
          ∧ objects deleted = objects w ∧ buckets deleted = buckets w)
    as (Hd1 & Hd2 & Hd3 & Hd4 & Hd5).
  { destruct Hdelete
      as [_ [(_ & -> & _) | (_ & k & content & _ & Hk & Hnode & ->)]];
      [done | ].
    assert (files w !! k = Some (File content)) as Hfile.
    { unfold nodeAt in Hnode. by destruct (isBase k). }
    repeat split; simpl.
    - intros k' Hne. apply lookup_delete_ne. congruence.
    - intros k'. rewrite lookup_delete.
      case_decide; [by intros [? ?] | done].
    - intros k' Hdir'. rewrite lookup_delete_ne; [done | congruence]. }
  assert ((∀ k, keyOf path ≠ Some k →
                files saved !! k = files w !! k
                ∨ (keyOf dir = Some k
                   ∧ files w !! k = None ∧ files saved !! k = Some Dir))
          ∧ (∀ k, is_Some (files w !! k) → is_Some (files saved !! k))
          ∧ (∀ k, files w !! k = Some Dir → files saved !! k = Some Dir)
          ∧ objects saved = objects w ∧ buckets saved = buckets w)
    as (Hs1 & Hs2 & Hs3 & Hs4 & Hs5);
    [ | repeat split; try done; by apply Hs3 || by apply Hd3].
  destruct Hsave as [(_ & _ & -> & _) | (w1 & before & Hdir & _ & Hwrite)];
    [split; [intros; by left | done] | ].
  assert ((∀ k, files w1 !! k = files w !! k
                ∨ (keyOf dir = Some k
                   ∧ files w !! k = None ∧ files w1 !! k = Some Dir))
          ∧ (∀ k, is_Some (files w !! k) → is_Some (files w1 !! k))
          ∧ (∀ k, files w !! k = Some Dir → files w1 !! k = Some Dir)
          ∧ objects w1 = objects w ∧ buckets w1 = buckets w)
    as (Hw1 & Hw2 & Hw3 & Hw4 & Hw5).
  { destruct Hdir as [(_ & -> & _) | (_ & _ & kd & Hkd & Hnone & ->)];
      [split; [intros; by left | done] | ].
    assert (files w !! kd = None) as Hlookup.
    { unfold nodeAt in Hnone. by destruct (isBase kd). }
    repeat split; simpl.
    - intros k. destruct (decide (kd = k)) as [<- | Hk].
      + right. by rewrite lookup_insert_eq.
      + left. by apply lookup_insert_ne.
    - intros k Hsome. rewrite lookup_insert. by case_decide.
    - intros k Hdir'. rewrite lookup_insert_ne; [done | congruence]. }
  destruct Hwrite as [(_ & _ & ->) | (_ & k1 & _ & Hk1 & Hnode & _ & ->)];
    [done | ].
  assert (files w1 !! k1 ≠ Some Dir) as Hnodir.
  { pose proof (nodeAt_base _ _ Hnode) as Hbase.
    unfold nodeAt in Hnode. by rewrite Hbase in Hnode. }
  repeat split; simpl; try done.
  - intros k Hk. rewrite lookup_insert_ne by congruence. apply Hw1.
  - intros k Hsome. rewrite lookup_insert. case_decide; [done | by apply Hw2].
  - intros k Hdir'. apply Hw3 in Hdir'.
    rewrite lookup_insert_ne; [done | congruence].
Qed.

End Footprint.

(** ** Identifiers at the edge *)

Section Aliases.
Import Js Io Contract Trace World Path.

Variable this : FilesystemBackend.t.

Let dir : string := FilesystemBackend.uploadDirectory this.

(** X8: it makes no difference whether the upload path is configured
    with or without a separator at its end: for every identifier but the
    empty one, the two backends compute the same file path. *)
Theorem getFilePath_ignores_trailing_separator
    (other : FilesystemBackend.t) (uuid : string) :
  FilesystemBackend.uploadDirectory other = dir +:+ "/" →
  dir ≠ "" → uuid ≠ "" →
  FilesystemBackend.getFilePath other uuid
    = FilesystemBackend.getFilePath this uuid.
Proof.
  intros Hother Hdir Huuid. unfold FilesystemBackend.getFilePath.
  rewrite Hother. fold dir.
  assert (dir +:+ "/" ≠ "") as Hdir' by by apply append_nonempty.
  rewrite (join_two (dir +:+ "/") uuid), (join_two dir uuid) by done.
  pose proof (append_assoc dir "/" ("/" +:+ uuid)) as Hassoc.
  apply normalize_ext; try (by apply append_nonempty).
  - rewrite Hassoc. by rewrite !isAbsolute_glue.
  - rewrite Hassoc, !isAbsolute_glue by done.
    rewrite (segments_glue dir ("/" +:+ uuid)), (segments_glue dir uuid).
    change (segments ("/" +:+ uuid)) with ("" :: segments uuid).
    apply normalizeSegments_skip. by left.
  - rewrite Hassoc.
    rewrite (trailingSeparator_app dir ("/" +:+ "/" +:+ uuid)) by done.
    rewrite (trailingSeparator_app dir ("/" +:+ uuid)) by done.
    rewrite (trailingSeparator_app "/" ("/" +:+ uuid)) by done.
    done.
Qed.

Lemma dot_prefix_longer (uuid : string) : "./" +:+ uuid ≠ uuid.
Proof.
  intros Heq. apply (f_equal String.length) in Heq.
  change (S (S (String.length uuid)) = String.length uuid) in Heq. lia.
Qed.

(** X9: one file, two URLs.  The identifiers [uuid] and ["./" + uuid]
    are joined to the same file path, so that what is saved under one is
    read, replaced and deleted under the other, while [getFileUrl] gives
    them different URLs. *)
Theorem dot_prefix_is_an_alias (uuid : string) :
  uuid ≠ "" → dir ≠ "" ∨ isAbsolute uuid = false →
  FilesystemBackend.getFilePath this ("./" +:+ uuid)
    = FilesystemBackend.getFilePath this uuid
  ∧ FilesystemBackend.getFileUrl this ("./" +:+ uuid)
    ≠ FilesystemBackend.getFileUrl this uuid.
Proof.
  intros Huuid Hrel. split.
  - unfold FilesystemBackend.getFilePath. fold dir.
    destruct (decide (dir = "")) as [-> | Hdir].
    + destruct Hrel as [ | Hrel]; [done | ].
      rewrite !join_right by done.
      apply normalize_ext; try done.
      * change ("./" +:+ uuid) with ("." +:+ "/" +:+ uuid).
        rewrite Hrel, segments_glue. simpl.
        apply (normalizeSegments_skip true [] (segments uuid) "."). by right.
      * by apply (trailingSeparator_app "./" uuid).
    + rewrite (join_two dir ("./" +:+ uuid)), (join_two dir uuid) by done.
      apply normalize_ext; try (by apply append_nonempty).
      * by rewrite !isAbsolute_glue.
      * rewrite !isAbsolute_glue by done.
        rewrite (segments_glue dir ("./" +:+ uuid)), (segments_glue dir uuid).
        change ("./" +:+ uuid) with ("." +:+ "/" +:+ uuid).
        rewrite segments_glue. simpl.
        apply normalizeSegments_skip. by right.
      * rewrite (trailingSeparator_app dir ("/" +:+ "./" +:+ uuid)) by done.
        rewrite (trailingSeparator_app dir ("/" +:+ uuid)) by done.
        rewrite (trailingSeparator_app "/" ("./" +:+ uuid))
          by by apply append_nonempty.
        rewrite (trailingSeparator_app "./" uuid) by done.
        by rewrite (trailingSeparator_app "/" uuid).
  - unfold FilesystemBackend.getFileUrl. intros Heq.
    injection Heq as Heq. by apply dot_prefix_longer in Heq.
Qed.

(** X10: the empty identifier names the upload directory itself.  As
    long as the upload path names a directory, or nothing yet,
    [saveFile("")] and [deleteFile("")] fail, and [deleteFile("")] leaves
    the world as it is: the directory is never replaced by a file nor
    removed. *)
Theorem empty_identifier_is_refused (buffer : Buffer) (w : World.t) :
  isDirectory w dir = true ∨ exists_ w dir = false →
  let saved := run handle (FilesystemBackend.saveFile this "" buffer) w in
  let deleted := run handle (FilesystemBackend.deleteFile this "") w in
  isThrow deleted.1.1 = true
  ∧ deleted.1.2 = w
  ∧ isThrow saved.1.1 = true
  ∧ (isDirectory w dir = true → isDirectory saved.1.2 dir = true).
Proof.
  intros Hdir saved deleted.
  pose proof (saveFile_effect this "" buffer w) as Hsave.
  pose proof (deleteFile_effect this "" w) as Hdelete.
  cbv zeta in Hsave, Hdelete. fold dir saved in Hsave. fold deleted in Hdelete.
  rewrite getFilePath_empty in Hsave, Hdelete. fold dir in Hsave, Hdelete.
  assert (∀ k, dir ≠ "" → keyOf (normalize dir) = Some k → keyOf dir = Some k)
    as Hsame by (intros k Hne; by rewrite keyOf_normalize).
  assert (isThrow deleted.1.1 = true ∧ deleted.1.2 = w) as [Hdeleted Hsamew].
  { destruct Hdelete
      as [_ [(-> & -> & _) | (_ & k & content & _ & Hk & Hnode & _)]];
      [done | exfalso].
    destruct (decide (dir = "")) as [Hempty | Hne].
    - injection Hk as <-. by unfold nodeAt in Hnode.
    - apply Hsame in Hk; [ | done].
      destruct Hdir as [Hisdir | Hno].
      + unfold isDirectory in Hisdir. rewrite Hk, Hnode in Hisdir. done.
      + unfold exists_ in Hno. rewrite Hk, Hnode in Hno.
        apply bool_decide_eq_false in Hno. apply Hno. eauto. }
  assert (∀ w1 k, keyOf (if decide (dir = "") then "." else normalize dir)
                    = Some k →
                  nodeAt (files w1) k ≠ Some Dir →
                  (exists_ w dir = true ∧ w1 = w)
                  ∨ (∃ kd, keyOf dir = Some kd ∧ nodeAt (files w) kd = None
                           ∧ w1 = withFiles w (<[kd := Dir]> (files w))) →
                  False) as Hrefused.
  { intros w1 k Hk Hnode Hstep.
    assert (dir ≠ "") as Hne.
    { intros Hempty. unfold exists_ in Hstep. rewrite Hempty in Hstep.
      by destruct Hstep as [(? & _) | (kd & ? & _)]. }
    rewrite decide_False in Hk by done. apply Hsame in Hk; [ | done].
    destruct Hstep as [(Hex & ->) | (kd & Hkd & Hnone & ->)].
    - destruct Hdir as [Hisdir | Hno]; [ | congruence].
      unfold isDirectory in Hisdir. rewrite Hk in Hisdir.
      by destruct (nodeAt (files w) k) as [[ | ?] | ].
    - rewrite Hk in Hkd. injection Hkd as <-. simpl in Hnode.
      rewrite nodeAt_insert in Hnode; [done | ].
      apply (nodeAt_base (files w)). congruence. }
  do 2 (split; [done | ]).
  destruct Hsave
    as [(_ & Hthrow & Hw & _) | (w1 & before & Hstep & _ & Hwrite)];
    [by rewrite Hthrow, Hw | ].
  assert ((exists_ w dir = true ∧ w1 = w)
          ∨ (∃ kd, keyOf dir = Some kd ∧ nodeAt (files w) kd = None
                   ∧ w1 = withFiles w (<[kd := Dir]> (files w)))) as Hstep'.
  { destruct Hstep as [(? & ? & _) | (_ & _ & kd & ? & ? & ?)];
      [by left | right; by exists kd]. }
  destruct Hwrite as [(_ & Hthrow & Hw) | (_ & k & _ & Hk & Hnode & _)];
    [ | by destruct (Hrefused w1 k Hk Hnode Hstep')].
  rewrite Hthrow, Hw. split; [done | ]. intros Hisdir.
  destruct Hstep' as [(_ & ->) | (kd & Hkd & Hnone & _)]; [done | ].
  unfold isDirectory in Hisdir. rewrite Hkd, Hnone in Hisdir. done.
Qed.

End Aliases.

(** ** Among other actors, and on the object store *)

(** One request of the world, by cases on how it is answered. *)
Ltac world_case :=
  match goal with
  | |- context [World.fsAccess ?p ?w] =>
      let Ha := fresh "Haccess" in
      destruct (fsAccess_cases p w) as [[Ha _] | [[? Ha] _]];
      rewrite Ha; clear Ha
  | |- context [World.fsMkdir ?p ?w] =>
      let Hm := fresh "Hmkdir" in
      destruct (fsMkdir_cases p w) as [(? & _ & _ & _ & Hm) | [? Hm]];
      rewrite Hm; clear Hm
  | |- context [World.fsWriteFile None ?p ?d ?w] =>
      let Hw := fresh "Hwrite" in
      destruct (fsWriteFile_cases p d w)
        as [(_ & ? & ? & ? & ? & _ & Hw) | (_ & ? & Hw)];
      rewrite Hw; clear Hw
  end;
  world_simpl.

Section Among.
Import Js Io Contract Trace World.

Variable this : FilesystemBackend.t.

(** X11: the last one wins.  Whatever other actors do to the world
    before each request of the operation, a [saveFile(id, c)] that returns
    has written last, so that the path, read at once afterwards, gives
    [c]; and a [deleteFile(id)] that returns has removed last, so that the
    path then names no file. *)
Theorem last_operation_wins (others : list (World.t → World.t))
    (uuid : string) (buffer : Buffer) (w : World.t) :
  let path := FilesystemBackend.getFilePath this uuid in
  let saved := run handleAmong (FilesystemBackend.saveFile this uuid buffer)
                 (others, w) in
  let deleted := run handleAmong (FilesystemBackend.deleteFile this uuid)
                   (others, w) in
  (saved.1.1 = Normal null → readFile saved.1.2.2 path = Some buffer)
  ∧ (deleted.1.1 = Normal () → readFile deleted.1.2.2 path = None).
Proof.
  cbv zeta. split.
  - unfold FilesystemBackend.saveFile, FilesystemBackend.ensureDirectory.
    destruct others as [ | o1 [ | o2 [ | o3 rest]]]; world_simpl;
      repeat world_case; intros Hok; try discriminate Hok;
      by apply readFile_written.
  - unfold FilesystemBackend.deleteFile.
    destruct others as [ | o1 rest]; world_simpl;
      match goal with
      | |- context [fsUnlink ?p ?w'] =>
          destruct (fsUnlink_cases p w')
            as [(k & content & Htrail & Hk & Hnode & Hu) | [[e Hu] _]];
          rewrite Hu; world_simpl
      end;
      intros Hok; try discriminate Hok;
      unfold readFile; rewrite Htrail, Hk; simpl;
      (rewrite nodeAt_delete; [done | ]);
      eapply nodeAt_base; by rewrite Hnode.
Qed.

End Among.

Section Store.
Import Js Io Contract Trace World.

Variable this : S3Backend.t.

(** X12: on the object store the identifier is the key, as it is.
    [saveFile(id, c)] that returns has put [c] under [id] in the
    configured bucket, [deleteFile(id)] that returns has left nothing
    there, and [getFileUrl] changes no object.  Whether they return or
    throw, the three operations leave every object with another key, and
    the whole file system, as they were. *)
Theorem S3_operations_footprint (uuid : string) (buffer : Buffer)
    (w : World.t) :
  let save := run handle (S3Backend.saveFile this uuid buffer) w in
  let del := run handle (S3Backend.deleteFile this uuid) w in
  let url := run handle (S3Backend.getFileUrl this uuid) w in
  (save.1.1 = Normal null →
   ∃ config, S3Backend.config this = Some config
             ∧ getObject save.1.2 (Config.bucket config) uuid = Some buffer)
  ∧ (del.1.1 = Normal () →
     ∃ config, S3Backend.config this = Some config
               ∧ getObject del.1.2 (Config.bucket config) uuid = None)
  ∧ (∀ bucketName objectName, objectName ≠ uuid →
       getObject save.1.2 bucketName objectName
         = getObject w bucketName objectName
       ∧ getObject del.1.2 bucketName objectName
         = getObject w bucketName objectName)
  ∧ objects url.1.2 = objects w
  ∧ files save.1.2 = files w ∧ files del.1.2 = files w
  ∧ files url.1.2 = files w.
Proof.
  cbv zeta.
  unfold S3Backend.saveFile, S3Backend.deleteFile, S3Backend.getFileUrl.
  destruct (S3Backend.client this) as [client | ];
    [ | by repeat split].
  destruct (S3Backend.config this) as [config | ];
    [ | by repeat split].
  world_simpl. unfold s3PutObject, s3RemoveObject, s3PresignedGetObject.
  destruct (hasBucket w (Config.bucket config)); world_simpl;
    [ | by repeat split].
  split; [intros _; exists config; split; [done | apply lookup_insert_eq] | ].
  split; [intros _; exists config; split; [done | apply lookup_delete_eq] | ].
  split; [ | done].
  intros bucketName objectName Hne. unfold getObject. simpl. split.
  - apply lookup_insert_ne. congruence.
  - apply lookup_delete_ne. congruence.
Qed.

End Store.

Section Bootstrap.
Import Js Io Contract Trace World.

Variable this : FilesystemBackend.t.

Let dir : string := FilesystemBackend.uploadDirectory this.

Lemma ensureDirectory_effect (w : World.t) :
  let r := run handle (FilesystemBackend.ensureDirectory this) w in
  (exists_ w dir = true
   ∧ r.1.1 = Normal () ∧ r.1.2 = w ∧ requests r.2 = [access dir])
  ∨ (exists_ w dir = false
     ∧ requests r.2 = [access dir; mkdir dir]
     ∧ ((r.1.1 = Throw (MediaBackendError
                          ("Could not create '" +:+ dir +:+ "'"))
         ∧ r.1.2 = w)
        ∨ (r.1.1 = Normal ()
           ∧ ∃ kd, keyOf dir = Some kd
                   ∧ nodeAt (files w) kd = None
                   ∧ r.1.2 = withFiles w (<[kd := Dir]> (files w))))).
Proof.
  cbv zeta. unfold FilesystemBackend.ensureDirectory. fold dir. world_simpl.
  destruct (fsAccess_cases dir w) as [[Ha Hex] | [[e Ha] Hex]];
    rewrite Ha; world_simpl; [by left | right].
  destruct (fsMkdir_cases dir w) as [(kd & ? & ? & ? & Hm) | [e' Hm]];
    rewrite Hm; world_simpl.
  - do 2 (split; [done | ]). right. split; [done | ]. by exists kd.
  - do 2 (split; [done | ]). by left.
Qed.

(** X13: the directory is made once.  An [ensureDirectory] that returns
    leaves the upload path in existence and the content of every file as
    it was; from then on [ensureDirectory] only looks ([fs.access]) and
    changes nothing, and a [saveFile] asks for no [fs.mkdir]. *)
Theorem ensureDirectory_once (uuid : string) (buffer : Buffer) (w : World.t) :
  let first := run handle (FilesystemBackend.ensureDirectory this) w in
  let again := run handle (FilesystemBackend.ensureDirectory this) first.1.2 in
  let save :=
    run handle (FilesystemBackend.saveFile this uuid buffer) first.1.2 in
  first.1.1 = Normal () →
  exists_ first.1.2 dir = true
  ∧ (∀ path, readFile first.1.2 path = readFile w path)
  ∧ again.1.1 = Normal () ∧ again.1.2 = first.1.2
  ∧ requests again.2 = [access dir]
  ∧ requests save.2
    = [access dir; writeFile (FilesystemBackend.getFilePath this uuid) buffer].
Proof.
  intros first again save Hfirst.
  assert (exists_ first.1.2 dir = true
          ∧ ∀ path, readFile first.1.2 path = readFile w path) as [Hex Hread].
  { pose proof (ensureDirectory_effect w) as Heff.
    cbv zeta in Heff. fold first in Heff.
    destruct Heff as [(? & _ & -> & _) | (_ & _ & [(Hthrow & _) | (_ & Hmade)])];
      [done | congruence | ].
    destruct Hmade as (kd & Hkd & Hnone & ->).
    split; [by apply exists_mkdir | intros path; by apply readFile_mkdir]. }
  do 2 (split; [done | ]).
  pose proof (ensureDirectory_effect first.1.2) as Hagain.
  cbv zeta in Hagain. fold again in Hagain.
  destruct Hagain as [(_ & ? & ? & ?) | (Hno & _)]; [ | congruence].
  do 3 (split; [done | ]).
  pose proof (saveFile_effect this uuid buffer first.1.2) as Hsave.
  cbv zeta in Hsave. fold dir save in Hsave.
  destruct Hsave as [(Hno & _) | (w1 & before & Hstep & Hreq & _)];
    [congruence | ].
  destruct Hstep as [(_ & _ & ->) | (Hno & _)]; [done | congruence].
Qed.

(** X14: no directory is made but the upload directory, and that one
    not recursively.  When the upload path names nothing and the directory
    it should lie in is missing, every [saveFile] fails on the directory
    and leaves the world as it is; and a [saveFile] that returns found the
    directory of its joined path in place, or it is the upload directory
    that it has just made. *)
Theorem saveFile_makes_no_other_directory
    (uuid : string) (buffer : Buffer) (w : World.t) :
  let path := FilesystemBackend.getFilePath this uuid in
  let r := run handle (FilesystemBackend.saveFile this uuid buffer) w in
  (exists_ w dir = false →
   (∀ kd, keyOf dir = Some kd → nodeAt (files w) (parentOf kd) ≠ Some Dir) →
   r.1.1 = Throw (MediaBackendError ("Could not create '" +:+ dir +:+ "'"))
   ∧ r.1.2 = w)
  ∧ (r.1.1 = Normal null →
     ∃ k, keyOf path = Some k
          ∧ (nodeAt (files w) (parentOf k) = Some Dir
             ∨ (keyOf dir = Some (parentOf k) ∧ exists_ w dir = false))).
Proof.
  intros path r. split.
  - intros Hmissing Hparent. subst r.
    unfold FilesystemBackend.saveFile, FilesystemBackend.ensureDirectory.
    fold dir path. world_simpl.
    destruct (fsAccess_cases dir w) as [[_ Hex] | [[e Ha] _]];
      [congruence | ].
    rewrite Ha. world_simpl.
    destruct (fsMkdir_cases dir w) as [(kd & Hkd & _ & Hdir & _) | [e' Hm]];
      [by destruct (Hparent kd Hkd) | ].
    rewrite Hm. by world_simpl.
  - intros Hok.
    pose proof (saveFile_effect this uuid buffer w) as Heff.
    cbv zeta in Heff. fold dir path r in Heff.
    destruct Heff as [(_ & Hthrow & _) | (w1 & before & Hstep & _ & Hwrite)];
      [congruence | ].
    destruct Hwrite as [(_ & Hthrow & _) | (_ & k & _ & Hk & _ & Hparent & _)];
      [congruence | ].
    exists k. split; [done | ].
    destruct Hstep as [(_ & -> & _) | (Hno & _ & kd & Hkd & _ & ->)];
      [by left | ].
    simpl in Hparent. destruct (decide (kd = parentOf k)) as [-> | Hne].
    + by right.
    + left. by rewrite nodeAt_insert_ne in Hparent.
Qed.

End Bootstrap.

(** ** From the configuration to the requests *)

Section Wiring.
Import Js Io Contract Trace.


Variable newURL : string → option Url.URL.
Variable refusal : Minio.Client → option Error.
Context {S S' : Type} (h : Handler S) (s : S) (h' : Handler S') (s' : S').

(** X15: when S3 is selected and the constructor returns, the client
    it has built is one the client library took, it carries the
    configured access key, secret key, region and path style, and it is
    with this client, and for the configured bucket, that each of the three
    operations makes its one request to the store. *)
Theorem S3Backend_uses_configured_client
    (mediaConfig : Config.MediaConfig) (this : S3Backend.t)
    (uuid : string) (buffer : Buffer) :
  let config := Config.s3 (Config.backend mediaConfig) in
  Config.use (Config.backend mediaConfig) = Config.S3 →
  (run h (S3Backend.constructor newURL refusal mediaConfig) s).1.1
    = Normal this →
  ∃ client,
    S3Backend.client this = Some client
    ∧ refusal client = None
    ∧ Minio.accessKey client = Config.accessKeyId config
    ∧ Minio.secretKey client = Config.secretAccessKey config
    ∧ Minio.region client = Config.region config
    ∧ Minio.pathStyle client = Config.pathStyle config
    ∧ omap clientOf (run h' (S3Backend.saveFile this uuid buffer) s').2
      = [client]
    ∧ omap clientOf (run h' (S3Backend.deleteFile this uuid) s').2 = [client]
    ∧ omap clientOf (run h' (S3Backend.getFileUrl this uuid) s').2 = [client]
    ∧ fst <$> settlements (run h' (S3Backend.saveFile this uuid buffer) s').2
      = [putObject (Config.bucket config) uuid buffer]
    ∧ fst <$> settlements (run h' (S3Backend.deleteFile this uuid) s').2
      = [removeObject (Config.bucket config) uuid]
    ∧ fst <$> settlements (run h' (S3Backend.getFileUrl this uuid) s').2
      = [presignedGetObject (Config.bucket config) uuid].
Proof.
  intros config Huse. unfold S3Backend.constructor. simpl.
  destruct (h _ _ s) as [[] s1]. simpl.
  destruct (decide _) as [Hne | _]; [by rewrite Huse in Hne | ].
  fold config. destruct (newURL _) as [url | ]; [ | discriminate].
  cbv zeta.
  match goal with
  | |- context [refusal ?o] => destruct (refusal o) as [err | ] eqn:Hrefusal
  end; [discriminate | ].
  simpl. intros [= <-]. eexists.
  split; [reflexivity | ]. split; [exact Hrefusal | ].
  do 4 (split; [reflexivity | ]).
  repeat apply conj.
  - apply (always_run (λ _ calls, omap clientOf calls = _)).
    unfold S3Backend.saveFile. answers; reflexivity.
  - apply (always_run (λ _ calls, omap clientOf calls = _)).
    unfold S3Backend.deleteFile. answers; reflexivity.
  - apply (always_run (λ _ calls, omap clientOf calls = _)).
    unfold S3Backend.getFileUrl. answers; reflexivity.
  - apply (always_run (λ _ calls, fst <$> settlements calls = _)).
    unfold S3Backend.saveFile. answers; reflexivity.
  - apply (always_run (λ _ calls, fst <$> settlements calls = _)).
    unfold S3Backend.deleteFile. answers; reflexivity.
  - apply (always_run (λ _ calls, fst <$> settlements calls = _)).
    unfold S3Backend.getFileUrl. answers; reflexivity.
Qed.

End Wiring.

(** ** The further properties at work *)

Section MoreInstances.
Import Js Io Contract Trace World.

Lemma rejections_are_logged_witness :
  S3Backend.client Demo.s3Backend = Some Cases.client
  ∧ errorLog (run handle (S3Backend.saveFile Demo.s3Backend "abc" [Byte.x01])
                World.empty).2
    = [("NoSuchBucket", "S3Error: NoSuchBucket", "saveFile")]
  ∧ errorLog (run handle
                (FilesystemBackend.deleteFile Demo.filesystemBackend "abc")
                World.empty).2
    = [("ENOENT: unlink 'uploads/abc'", "Error: ENOENT: unlink 'uploads/abc'",
        "deleteFile")].
Proof.
  pose proof (rejections_are_logged handle World.empty Demo.filesystemBackend
                Demo.s3Backend Cases.client
                (Config.s3 (Config.backend (Demo.mediaConfig Config.S3)))
                "abc" [Byte.x01] eq_refl eq_refl)
    as (_ & [Hdelete _] & [Hsave _] & _).
  split; [reflexivity | ]. split; [exact Hsave | exact Hdelete].
Defined.

Lemma S3_operations_pass_through_witness :
  S3Backend.config Demo.s3Backend
    = Some (Config.s3 (Config.backend (Demo.mediaConfig Config.S3)))
  ∧ settlements Demo.put.2 = [(putObject "media" "abc" [Byte.x01], true)]
  ∧ infoLog Demo.put.2 = [("Uploaded file abc", "saveFile")].
Proof.
  pose proof (S3_operations_pass_through handle Demo.world Demo.s3Backend
                Cases.client
                (Config.s3 (Config.backend (Demo.mediaConfig Config.S3)))
                "abc" [Byte.x01] eq_refl eq_refl)
    as ([Hrequest Hlog] & _).
  split; [reflexivity | ]. split; [exact Hrequest | exact Hlog].
Defined.

Lemma failed_saveFile_cleans_nothing_witness :
  isThrow Cases.interrupted.1.1 = true
  ∧ readFile World.empty "uploads/abc" = None
  ∧ readFile Cases.interrupted.1.2.2 "uploads/abc" = Some [Byte.x01]
  ∧ requests Cases.interrupted.2
    = [access "uploads"; mkdir "uploads";
       writeFile "uploads/abc" [Byte.x01; Byte.x02]]
  ∧ unlink "uploads/abc" ∉ requests Cases.interrupted.2.
Proof.
  pose proof (failed_saveFile_cleans_nothing Demo.filesystemBackend
                [None; None; Some Cases.diskFull] "abc" [Byte.x01; Byte.x02]
                World.empty eq_refl) as (_ & _ & _ & Hkeep & _).
  split; [reflexivity | ]. split; [reflexivity | ]. split; [reflexivity | ].
  split; [reflexivity | exact (Hkeep "uploads/abc")].
Defined.

Lemma saveFile_then_deleteFile_witness :
  Demo.saved.1.1 = Normal null
  ∧ (run handle (FilesystemBackend.deleteFile Demo.filesystemBackend "abc")
       Demo.saved.1.2).1.1 = Normal ()
  ∧ readFile
      (run handle (FilesystemBackend.deleteFile Demo.filesystemBackend "abc")
         Demo.saved.1.2).1.2 "uploads/abc" = None.
Proof.
  pose proof (saveFile_then_deleteFile Demo.filesystemBackend "abc" [Byte.x01]
                Demo.world eq_refl) as (Hdeleted & Hgone & _).
  split; [reflexivity | ]. split; [exact Hdeleted | exact Hgone].
Defined.

Lemma getFilePath_ignores_trailing_separator_witness :
  FilesystemBackend.uploadDirectory Cases.trailing = "uploads" +:+ "/"
  ∧ FilesystemBackend.getFilePath Cases.trailing "abc" = "uploads/abc".
Proof.
  assert ("uploads" ≠ "") as Hdir by discriminate.
  assert ("abc" ≠ "") as Huuid by discriminate.
  split; [reflexivity | ].
  exact (getFilePath_ignores_trailing_separator Demo.filesystemBackend
           Cases.trailing "abc" eq_refl Hdir Huuid).
Defined.

Lemma dot_prefix_is_an_alias_witness :
  FilesystemBackend.getFilePath Demo.filesystemBackend "./abc" = "uploads/abc"
  ∧ FilesystemBackend.getFileUrl Demo.filesystemBackend "./abc"
    ≠ FilesystemBackend.getFileUrl Demo.filesystemBackend "abc".
Proof.
  assert ("abc" ≠ "") as Huuid by discriminate.
  exact (dot_prefix_is_an_alias Demo.filesystemBackend "abc" Huuid
           (or_intror eq_refl)).
Defined.

Lemma empty_identifier_is_refused_witness :
  isDirectory Cases.stocked "uploads" = true
  ∧ isThrow (run handle
               (FilesystemBackend.deleteFile Demo.filesystemBackend "")
               Cases.stocked).1.1 = true
  ∧ isThrow (run handle
               (FilesystemBackend.saveFile Demo.filesystemBackend ""
                  [Byte.x01]) Cases.stocked).1.1 = true.
Proof.
  pose proof (empty_identifier_is_refused Demo.filesystemBackend [Byte.x01]
                Cases.stocked (or_introl eq_refl))
    as (Hdeleted & _ & Hsaved & _).
  split; [reflexivity | ]. split; [exact Hdeleted | exact Hsaved].
Defined.

Lemma last_operation_wins_witness :
  (run handleAmong
     (FilesystemBackend.saveFile Demo.filesystemBackend "abc" [Byte.x01])
     (Cases.others, World.empty)).1.1 = Normal null
  ∧ readFile
      (run handleAmong
         (FilesystemBackend.saveFile Demo.filesystemBackend "abc" [Byte.x01])
         (Cases.others, World.empty)).1.2.2 "uploads/abc" = Some [Byte.x01]
  ∧ (run handleAmong
       (FilesystemBackend.deleteFile Demo.filesystemBackend "abc")
       ([Demo.mkdirUploads ∘ nth 2 Cases.others id], World.empty)).1.1
    = Normal ()
  ∧ readFile
      (run handleAmong
         (FilesystemBackend.deleteFile Demo.filesystemBackend "abc")
         ([Demo.mkdirUploads ∘ nth 2 Cases.others id], World.empty)).1.2.2
      "uploads/abc" = None.
Proof.
  pose proof (last_operation_wins Demo.filesystemBackend Cases.others "abc"
                [Byte.x01] World.empty) as [Hsaved _].
  pose proof (last_operation_wins Demo.filesystemBackend
                [Demo.mkdirUploads ∘ nth 2 Cases.others id] "abc"
                [Byte.x01] World.empty) as [_ Hdeleted].
  split; [reflexivity | ]. split; [exact (Hsaved eq_refl) | ].
  split; [reflexivity | exact (Hdeleted eq_refl)].
Defined.

Lemma S3_operations_footprint_witness :
  Demo.put.1.1 = Normal null
  ∧ getObject Demo.put.1.2 "media" "abc" = Some [Byte.x01]
  ∧ (run handle (S3Backend.deleteFile Demo.s3Backend "abc") Demo.put.1.2).1.1
    = Normal ()
  ∧ getObject
      (run handle (S3Backend.deleteFile Demo.s3Backend "abc") Demo.put.1.2).1.2
      "media" "abc" = None.
Proof.
  pose proof (S3_operations_footprint Demo.s3Backend "abc" [Byte.x01]
                Demo.world) as (Hsave & _).
  pose proof (S3_operations_footprint Demo.s3Backend "abc" [Byte.x01]
                Demo.put.1.2) as (_ & Hdelete & _).
  destruct (Hsave eq_refl) as (config & Hconfig & Hput).
  destruct (Hdelete eq_refl) as (config' & Hconfig' & Hgone).
  injection Hconfig as <-. injection Hconfig' as <-.
  split; [reflexivity | ]. split; [exact Hput | ].
  split; [reflexivity | exact Hgone].
Defined.

Lemma ensureDirectory_once_witness :
  (run handle (FilesystemBackend.ensureDirectory Demo.filesystemBackend)
     World.empty).1.1 = Normal ()
  ∧ requests
      (run handle (FilesystemBackend.ensureDirectory Demo.filesystemBackend)
         World.empty).2 = [access "uploads"; mkdir "uploads"]
  ∧ requests
      (run handle (FilesystemBackend.ensureDirectory Demo.filesystemBackend)
         (run handle (FilesystemBackend.ensureDirectory Demo.filesystemBackend)
            World.empty).1.2).2 = [access "uploads"].
Proof.
  pose proof (ensureDirectory_once Demo.filesystemBackend "abc" [Byte.x01]
                World.empty eq_refl) as (_ & _ & _ & _ & Hagain & _).
  split; [reflexivity | ]. split; [reflexivity | exact Hagain].
Defined.

Lemma saveFile_makes_no_other_directory_witness :
  exists_ World.empty "data/uploads" = false
  ∧ (run handle (FilesystemBackend.saveFile Cases.nested "abc" [Byte.x01])
       World.empty).1.1
    = Throw (MediaBackendError "Could not create 'data/uploads'")
  ∧ (run handle (FilesystemBackend.saveFile Cases.nested "abc" [Byte.x01])
       World.empty).1.2 = World.empty.
Proof.
  pose proof (saveFile_makes_no_other_directory Cases.nested "abc" [Byte.x01]
                World.empty) as [Hmissing _].
  split; [reflexivity | ].
  apply Hmissing; [reflexivity | ].
  intros kd [= <-]. discriminate.
Defined.


Lemma S3Backend_uses_configured_client_witness :
  (run handle (S3Backend.constructor Demo.newURL Demo.refusal
                 (Demo.mediaConfig Config.S3)) World.empty).1.1
    = Normal Demo.s3Backend
  ∧ omap clientOf (run handle (S3Backend.saveFile Demo.s3Backend "abc"
                                 [Byte.x01]) Demo.world).2 = [Cases.client].
Proof.
  destruct (S3Backend_uses_configured_client Demo.newURL Demo.refusal
              handle World.empty handle Demo.world
              (Demo.mediaConfig Config.S3) Demo.s3Backend
              "abc" [Byte.x01] eq_refl eq_refl)
    as (client & Hclient & _ & _ & _ & _ & _ & Hsave & _).
  split; [reflexivity | ].
  injection Hclient as <-. exact Hsave.
Defined.

End MoreInstances.
